(** * The EDGAR daily-index notebook: URL builder, master.idx parser and
      record transformation

    A shallow embedding of the code cells of
    [Web Scraping SEC - Daily Index.ipynb]:

    - [make_url] (cell 2), the URL builder;
    - cell 12, which splits the decoded text of a master index file into
      chunks, drops the header and extracts one five-field row per [.txt]
      token;
    - cell 14, which rewrites [master_data] in place into dictionaries;
    - cell 16, which scans the first hundred dictionaries for 10-K filings
      and derives three related URLs from the last one found;
    - cells 5, 7 and 9 (counted, like the others, by their position in the
      notebook), which walk the directory listings of the archive and print
      the URLs they build with [make_url].

    Python [str] values are [string]s, Python lists are [list]s, the
    document dictionaries are [gmap string string], and an exception ends
    the run of a cell ([Raise]). *)

From Stdlib Require Import Ascii ZArith Lia.
From stdpp Require Import gmap strings list fin_maps.

Local Open Scope Z_scope.
Local Open Scope nat_scope.

(** ** Exceptions *)

Inductive exn : Type :=
| NameError (name : string)
| IndexError
| KeyError (key : string)
| TypeError.

Inductive result (A : Type) : Type :=
| Ok (a : A)
| Raise (e : exn).

Arguments Ok {A} a.
Arguments Raise {A} e.

Definition bind {A B : Type} (r : result A) (k : A → result B) : result B :=
  match r with
  | Ok a => k a
  | Raise e => Raise e
  end.

Notation "x ←? r ; k" := (bind r (λ x, k))
  (at level 100, r at next level, right associativity,
   format "x  ←?  r ;  '/' k").

(** ** Python string primitives

    A text is the sequence of the bytes of its UTF-8 encoding.  Every
    pattern the notebook searches for is ASCII, and an ASCII byte never
    occurs inside the encoding of another character, so searching and
    cutting the bytes agrees with searching and cutting the decoded
    characters. *)

Module PyStr.

(** [len(s)] *)
Definition len (s : string) : nat := String.length s.

(** [s[:n]] for [0 <= n] *)
Fixpoint slice_to (n : nat) (s : string) : string :=
  match n, s with
  | 0, _ => ""
  | S _, "" => ""
  | S n', String c s' => String c (slice_to n' s')
  end.

(** [s[n:]] for [0 <= n] *)
Fixpoint slice_from (n : nat) (s : string) : string :=
  match n, s with
  | 0, _ => s
  | S _, "" => ""
  | S n', String _ s' => slice_from n' s'
  end.

(** [s.startswith(p)] *)
Fixpoint startswith (p s : string) : bool :=
  match p, s with
  | "", _ => true
  | String _ _, "" => false
  | String a p', String b s' => if Ascii.eqb a b then startswith p' s' else false
  end.

(** [s.endswith(p)] *)
Definition endswith (p s : string) : bool :=
  (len p <=? len s) && String.eqb (slice_from (len s - len p) s) p.

(** [s.find(sub)]: the index of the leftmost occurrence, [None] for -1 *)
Fixpoint find (sub s : string) : option nat :=
  if startswith sub s then Some 0
  else match s with
       | "" => None
       | String _ s' => S <$> find sub s'
       end.

(** [sub in s] *)
Definition contains (sub s : string) : bool :=
  match find sub s with
  | Some _ => true
  | None => false
  end.

(** [s.rfind(sub)]: the index of the rightmost occurrence *)
Fixpoint rfind (sub s : string) : option nat :=
  match s with
  | "" => if startswith sub "" then Some 0 else None
  | String _ s' =>
      match rfind sub s' with
      | Some i => Some (S i)
      | None => if startswith sub s then Some 0 else None
      end
  end.

(** [s.split(sep)] for a non-empty separator: cut at the leftmost
    occurrence, continue behind it.  The recursion is on a counter that
    starts at [len(s)], one more than the number of cuts that can happen.
    (Python raises ValueError on an empty separator; the notebook only
    passes the literals of two spaces, a bar and [.txt].) *)
Fixpoint split_n (n : nat) (sep s : string) : list string :=
  match n with
  | 0 => [s]
  | S n' =>
      match find sep s with
      | None => [s]
      | Some i => slice_to i s :: split_n n' sep (slice_from (i + len sep) s)
      end
  end.

Definition split (sep s : string) : list string := split_n (len s) sep s.

(** [s.replace(old, new)] for a non-empty [old]: every leftmost
    non-overlapping occurrence is replaced, from left to right. *)
Fixpoint replace_n (n : nat) (old new s : string) : string :=
  match n with
  | 0 => s
  | S n' =>
      match find old s with
      | None => s
      | Some i =>
          slice_to i s +:+ new +:+ replace_n n' old new (slice_from (i + len old) s)
      end
  end.

Definition replace (old new s : string) : string := replace_n (len s) old new s.

(** [s.rpartition(sep)] for a non-empty separator: head, separator and
    tail around the last occurrence; two empty strings and [s] when there
    is none. *)
Definition rpartition (sep s : string) : string * string * string :=
  match rfind sep s with
  | Some i => (slice_to i s, sep, slice_from (i + len sep) s)
  | None => ("", "", s)
  end.

(** No occurrence of [sub] straddles the seam in front of [b]: the
    condition under which searching [a ++ b] splits into searching [a] and
    searching [b]. *)
Definition no_straddle (sub b : string) : Prop :=
  ∀ k, 0 < k → k < len sub → startswith (slice_from k sub) b = false.

End PyStr.

(** ** Python list slicing *)

Module PyList.

(** Clamp a slice bound the way Python does: a negative bound counts from
    the end, and the result is cut to [0 .. len]. *)
Definition bound (n : nat) (i : Z) : nat :=
  if (i <? 0)%Z then Z.to_nat (Z.max (i + Z.of_nat n) 0)
  else Nat.min (Z.to_nat i) n.

(** [l[start:stop]] *)
Definition slice {A : Type} (start stop : Z) (l : list A) : list A :=
  let lo := bound (length l) start in
  let hi := bound (length l) stop in
  take (hi - lo) (drop lo l).

End PyList.

(** ** Cell 2: the URL builder *)

(** [def make_url(base_url, comp)]: [url = '{}/{}'.format(url, r)] for each
    component in turn. *)
Definition make_url (base_url : string) (comp : list string) : string :=
  foldl (λ url r, url +:+ "/" +:+ r) base_url comp.

(** ** Cell 12: parsing the master index file *)

Definition sentinel : string := "ftp://ftp.sec.gov/edgar/".
Definition archives : string := "https://www.sec.gov/Archives/".

(** The character [\n]. *)
Definition newline : string := String "010" "".

(** [data = byte_data.decode("utf-8").split('  ')], on the decoded text:
    [text] is what [decode] has returned.  Opening the file, reading it and
    decoding its bytes are not embedded, so a UnicodeDecodeError of [decode]
    is no result of [data] or of [parse]. *)
Definition data (text : string) : list string := PyStr.split "  " text.

(** The header scan
    [[
    for index, item in enumerate(data):
        if "ftp://ftp.sec.gov/edgar/" in item:
            start_ind = index
    ]]
    threads the variable [start_ind], unbound ([None]) before the loop. *)
Fixpoint header_scan (index : nat) (data : list string) (start_ind : option nat)
  : option nat :=
  match data with
  | [] => start_ind
  | item :: data' =>
      header_scan (S index) data'
        (if PyStr.contains sentinel item then Some index else start_ind)
  end.

Definition start_ind (data : list string) : option nat := header_scan 0 data None.

(** [data_format = data[start_ind + 1:]]; reading [start_ind], which no
    earlier cell binds, raises NameError when the scan has not assigned
    it. *)
Definition data_format (data : list string) : result (list string) :=
  match start_ind data with
  | None => Raise (NameError "start_ind")
  | Some i => Ok (drop (i + 1) data)
  end.

(** [item.replace('\n','|').split('|')] *)
Definition tokens (item : string) : list string :=
  PyStr.split "|" (PyStr.replace newline "|" item).

(** The tokens of the chunk at [index]; [clean_item_data[8:]] for the chunk
    at index 0. *)
Definition clean_item_data (index : nat) (item : string) : list string :=
  if index =? 0 then drop 8 (tokens item) else tokens item.

(** One turn of the row loop at position [index], on the token [row]:
    [[
    if '.txt' in row:
        mini_list = clean_item_data[(index - 4): index + 1]
        if len(mini_list) != 0:
            mini_list[4] = "https://www.sec.gov/Archives/" + mini_list[4]
            master_data.append(mini_list)
    ]]
    [mini_list[4]] raises IndexError on a slice shorter than five. *)
Definition row_step (clean_item_data : list string) (index : nat) (row : string)
    (master_data : list (list string)) : result (list (list string)) :=
  if PyStr.contains ".txt" row then
    let mini_list :=
      PyList.slice (Z.of_nat index - 4) (Z.of_nat index + 1) clean_item_data in
    if bool_decide (length mini_list ≠ 0) then
      match mini_list !! 4 with
      | None => Raise IndexError
      | Some file => Ok (master_data ++ [<[4 := archives +:+ file]> mini_list])
      end
    else Ok master_data
  else Ok master_data.

(** [for index, row in enumerate(clean_item_data)]: [rows] is what is left
    to visit, from position [index] on. *)
Fixpoint row_loop (clean_item_data : list string) (index : nat) (rows : list string)
    (master_data : list (list string)) : result (list (list string)) :=
  match rows with
  | [] => Ok master_data
  | row :: rows' =>
      master_data' ←? row_step clean_item_data index row master_data;
      row_loop clean_item_data (S index) rows' master_data'
  end.

(** [for index, item in enumerate(data_format)].  The inner loop reuses the
    name [index], but the outer [for] rebinds it before the test
    [index == 0] of the next turn. *)
Fixpoint chunk_loop (index : nat) (data_format : list string)
    (master_data : list (list string)) : result (list (list string)) :=
  match data_format with
  | [] => Ok master_data
  | item :: data_format' =>
      let clean_item_data := clean_item_data index item in
      master_data' ←? row_loop clean_item_data 0 clean_item_data master_data;
      chunk_loop (S index) data_format' master_data'
  end.

(** The whole cell, from the decoded text to [master_data]. *)
Definition parse (text : string) : result (list (list string)) :=
  data_format ←? data_format (data text);
  chunk_loop 0 data_format [].

(** ** Cell 14: the document dictionaries *)

(** An entry of [master_data] is a row (a list of strings) when cell 12 has
    produced it and a dictionary once cell 14 has rewritten it. *)
Inductive document : Type :=
| Row (fields : list string)
| Dict (d : gmap string string).

(** [document[i]] for an integer [i]: IndexError past the end of a list,
    KeyError on a dictionary (whose keys are strings). *)
Definition getitem_int (document : document) (i : nat) (shown : string)
  : result string :=
  match document with
  | Row fields =>
      match fields !! i with
      | Some x => Ok x
      | None => Raise IndexError
      end
  | Dict _ => Raise (KeyError shown)
  end.

(** [document_dict[key]] for a string [key]: KeyError when absent, TypeError
    on a list. *)
Definition getitem_str (document_dict : document) (key : string) : result string :=
  match document_dict with
  | Dict d =>
      match d !! key with
      | Some x => Ok x
      | None => Raise (KeyError key)
      end
  | Row _ => Raise TypeError
  end.

(** The body of the loop of cell 14: an empty dictionary filled key by key. *)
Definition document_dict (document : document) : result (gmap string string) :=
  let document_dict : gmap string string := ∅ in
  cik_number ←? getitem_int document 0 "0";
  let document_dict := <["cik_number" := cik_number]> document_dict in
  company_name ←? getitem_int document 1 "1";
  let document_dict := <["company_name" := company_name]> document_dict in
  form_id ←? getitem_int document 2 "2";
  let document_dict := <["form_id" := form_id]> document_dict in
  date ←? getitem_int document 3 "3";
  let document_dict := <["date" := date]> document_dict in
  file_url ←? getitem_int document 4 "4";
  let document_dict := <["file_url" := file_url]> document_dict in
  Ok document_dict.

(** [for index, document in enumerate(master_data): ...
    master_data[index] = document_dict]: the list iterator reads position
    [index] of the list as it is at that turn and stops past its end;
    [todo] bounds the number of turns by the length at entry, which the
    assignments do not change. *)
Fixpoint dict_loop (todo index : nat) (master_data : list document)
  : result (list document) :=
  match todo with
  | 0 => Ok master_data
  | S todo' =>
      match master_data !! index with
      | None => Ok master_data
      | Some document =>
          d ←? document_dict document;
          dict_loop todo' (S index) (<[index := Dict d]> master_data)
      end
  end.

Definition cell14 (master_data : list document) : result (list document) :=
  dict_loop (length master_data) 0 master_data.

(** ** Cell 16: filtering by form type and deriving the related URLs *)

(** What the filter loop leaves behind: the variables [comp_name] and
    [docu_url] (unbound before the first hit), the printed lines, and
    [hits], the dictionaries for which the body of the [if] ran, in the
    order in which they were printed. *)
Record scan : Type := Scan {
  hits : list (gmap string string);
  comp_name : option string;
  docu_url : option string;
  stdout : list string;
}.

(** ['-'*100] *)
Definition rule : string :=
  Eval vm_compute in foldr String.append "" (replicate 100 "-").

(** One turn:
    [[
    if document_dict['form_id'] == '10-K':
        comp_name = document_dict['company_name']
        docu_url = document_dict['file_url']
        print('-'*100); print(comp_name); print(docu_url)
    ]]
    with the literal ['10-K'] as the parameter [form]. *)
Definition scan_step (form : string) (document_dict : document) (st : scan)
  : result scan :=
  form_id ←? getitem_str document_dict "form_id";
  if bool_decide (form_id = form) then
    name ←? getitem_str document_dict "company_name";
    url ←? getitem_str document_dict "file_url";
    Ok {| hits := hits st ++ match document_dict with Dict d => [d] | Row _ => [] end;
          comp_name := Some name;
          docu_url := Some url;
          stdout := stdout st ++ [rule; name; url] |}
  else Ok st.

Fixpoint scan_loop (form : string) (documents : list document) (st : scan)
  : result scan :=
  match documents with
  | [] => Ok st
  | document_dict :: documents' =>
      st' ←? scan_step form document_dict st;
      scan_loop form documents' st'
  end.

(** [for document_dict in master_data[0:100]] *)
Definition scan_forms (form : string) (master_data : list document) (st : scan)
  : result scan :=
  scan_loop form (PyList.slice 0 100 master_data) st.

(** The records the loop selects. *)
Definition filterByFormType (form : string) (master_data : list document)
  : result (list (gmap string string)) :=
  st ←? scan_forms form master_data (Scan [] None None []);
  Ok (hits st).

(** [file_url_adj = docu_url.split('.txt')];
    [file_url_archive = file_url_adj[0] + '-index.htm'] *)
Definition file_url_archive (docu_url : string) : result string :=
  let file_url_adj := PyStr.split ".txt" docu_url in
  match file_url_adj !! 0 with
  | Some head => Ok (head +:+ "-index.htm")
  | None => Raise IndexError
  end.

(** [archive_url = docu_url.replace('.txt','').replace('-','')] *)
Definition archive_url (docu_url : string) : string :=
  PyStr.replace "-" "" (PyStr.replace ".txt" "" docu_url).

(** [company_url = docu_url.rpartition('/')]; the cell prints
    [company_url[0]]. *)
Definition company_url (docu_url : string) : string * string * string :=
  PyStr.rpartition "/" docu_url.

(** The global variables cell 16 reads and writes. *)
Record globals : Type := Globals {
  g_master_data : list document;
  g_comp_name : option string;
  g_docu_url : option string;
  g_file_url_archive : option string;
  g_archive_url : option string;
  g_company_url : option (string * string * string);
  g_stdout : list string;
}.

(** Reading a global variable. *)
Definition read {A : Type} (name : string) (v : option A) : result A :=
  match v with
  | Some x => Ok x
  | None => Raise (NameError name)
  end.

(** The whole of cell 16, with the form type of the filter as a parameter
    (the notebook fixes it to ['10-K']). *)
Definition cell16 (form : string) (g : globals) : result globals :=
  st ←? scan_forms form (g_master_data g)
          (Scan [] (g_comp_name g) (g_docu_url g) (g_stdout g));
  url ←? read "docu_url" (docu_url st);
  detail ←? file_url_archive url;
  let out := stdout st ++ [rule; "The Filing Detail can be found here: " +:+ detail] in
  let archive := archive_url url in
  let out := out ++ [rule; "The Archive Folder can be found here: " +:+ archive] in
  let company := company_url url in
  let out := out ++ [rule; "The Company Archive Folder can be found here: " +:+ company.1.1] in
  Ok {| g_master_data := g_master_data g;
        g_comp_name := comp_name st;
        g_docu_url := Some url;
        g_file_url_archive := Some detail;
        g_archive_url := Some archive;
        g_company_url := Some company;
        g_stdout := out |}.

(** ** Cells 5, 7 and 9: walking the directory listings

    The HTTP transport is outside the notebook.  [server url] stands for
    [requests.get(url).json()['directory']['item']]: the items of the
    directory listing at [url], each a dictionary of strings, or the
    exception that the request, the decoding or one of the two subscripts
    raises.  A cell is given the base URL and the CIK that the notebook
    fixes; it logs the URLs it requests and the lines it prints. *)

Record walk : Type := Walk {
  requested : list string;
  printed : list string;
}.

(** [content = requests.get(url)] and the items of [content.json()]. *)
Definition fetch (server : string → result (list (gmap string string)))
    (url : string) (w : walk) : result (list (gmap string string) * walk) :=
  items ←? server url;
  Ok (items, Walk (requested w ++ [url]) (printed w)).

(** [print] of some lines. *)
Definition print (lines : list string) (w : walk) : walk :=
  Walk (requested w) (printed w ++ lines).

(** Cell 5, the document loop:
    [[
    for document in document_content['directory']['item']:
        if document['type'] != 'image2.gif':
            document_name = document['name']
            filing_url = make_url(base_url, [cik_num, filing_number, document_name])
            print(filing_url)
    ]] *)
Definition document_step (base_url cik_num filing_number : string)
    (document : gmap string string) (w : walk) : result walk :=
  type ←? getitem_str (Dict document) "type";
  if bool_decide (type ≠ "image2.gif") then
    document_name ←? getitem_str (Dict document) "name";
    let filing_url := make_url base_url [cik_num; filing_number; document_name] in
    Ok (print [filing_url] w)
  else Ok w.

Fixpoint document_loop (base_url cik_num filing_number : string)
    (documents : list (gmap string string)) (w : walk) : result walk :=
  match documents with
  | [] => Ok w
  | document :: documents' =>
      w' ←? document_step base_url cik_num filing_number document w;
      document_loop base_url cik_num filing_number documents' w'
  end.

(** Cell 5: the listing of the company, the name of its first filing
    ([decoded_content['directory']['item'][0]['name']]), the listing of that
    filing, and the document loop. *)
Definition cell5 (server : string → result (list (gmap string string)))
    (base_url cik_num : string) : result walk :=
  let filings_url := make_url base_url [cik_num; "index.json"] in
  p ←? fetch server filings_url (Walk [] []);
  first ←? match p.1 !! 0 with Some x => Ok x | None => Raise IndexError end;
  filing_number ←? getitem_str (Dict first) "name";
  let filing_url := make_url base_url [cik_num; filing_number; "index.json"] in
  q ←? fetch server filing_url p.2;
  document_loop base_url cik_num filing_number q.1 q.2.

(** Cell 7, the inner loop: every document is printed, images too.
    [[
    for document in document_content['directory']['item']:
        document_name = document['name']
        filing_url = make_url(base_url, [cik_num, filing_num, document_name])
        print(filing_url)
    ]] *)
Fixpoint name_loop (base_url cik_num filing_num : string)
    (documents : list (gmap string string)) (w : walk) : result walk :=
  match documents with
  | [] => Ok w
  | document :: documents' =>
      document_name ←? getitem_str (Dict document) "name";
      let filing_url := make_url base_url [cik_num; filing_num; document_name] in
      name_loop base_url cik_num filing_num documents' (print [filing_url] w)
  end.

(** Cell 7, one filing: its name, two printed lines, its listing, its
    documents. *)
Definition filing_step (server : string → result (list (gmap string string)))
    (base_url cik_num : string) (filing_number : gmap string string) (w : walk)
  : result walk :=
  filing_num ←? getitem_str (Dict filing_number) "name";
  let w := print [rule; "Grabbing filing : " +:+ filing_num] w in
  let filing_url := make_url base_url [cik_num; filing_num; "index.json"] in
  q ←? fetch server filing_url w;
  name_loop base_url cik_num filing_num q.1 q.2.

Fixpoint filing_loop (server : string → result (list (gmap string string)))
    (base_url cik_num : string) (filings : list (gmap string string)) (w : walk)
  : result walk :=
  match filings with
  | [] => Ok w
  | filing_number :: filings' =>
      w' ←? filing_step server base_url cik_num filing_number w;
      filing_loop server base_url cik_num filings' w'
  end.

(** Cell 7: [for filing_number in decoded_content['directory']['item'][3:5]]. *)
Definition cell7 (server : string → result (list (gmap string string)))
    (base_url cik_num : string) : result walk :=
  let filings_url := make_url base_url [cik_num; "index.json"] in
  p ←? fetch server filings_url (Walk [] []);
  filing_loop server base_url cik_num (PyList.slice 3 5 p.1) p.2.

(** Cell 9, the file loop:
    [[
    for file in decoded_content['directory']['item'][0:10]:
        file_url = make_url(base_url, ['2019', item['name'], file['name']])
        print("File URL Link: " + file_url)
    ]] *)
Fixpoint file_loop (base_url : string) (item : gmap string string)
    (files : list (gmap string string)) (w : walk) : result walk :=
  match files with
  | [] => Ok w
  | file :: files' =>
      quarter ←? getitem_str (Dict item) "name";
      name ←? getitem_str (Dict file) "name";
      let file_url := make_url base_url ["2019"; quarter; name] in
      file_loop base_url item files' (print ["File URL Link: " +:+ file_url] w)
  end.

(** Cell 9, one quarter folder. *)
Definition quarter_step (server : string → result (list (gmap string string)))
    (base_url : string) (item : gmap string string) (w : walk) : result walk :=
  let w := print [rule] w in
  quarter ←? getitem_str (Dict item) "name";
  let w := print ["Pulling url for Quarter: " +:+ quarter] w in
  quarter ←? getitem_str (Dict item) "name";
  let qtr_url := make_url base_url ["2019"; quarter; "index.json"] in
  let w := print ["URL Link: " +:+ qtr_url] w in
  q ←? fetch server qtr_url w;
  let w := print [rule; "Pulling files"] q.2 in
  file_loop base_url item (PyList.slice 0 10 q.1) w.

Fixpoint quarter_loop (server : string → result (list (gmap string string)))
    (base_url : string) (items : list (gmap string string)) (w : walk) : result walk :=
  match items with
  | [] => Ok w
  | item :: items' =>
      w' ←? quarter_step server base_url item w;
      quarter_loop server base_url items' w'
  end.

(** Cell 9: the listing of the year, and
    [for item in decoded_content['directory']['item'][0:1]].  The slice is
    taken before the body rebinds [decoded_content]. *)
Definition cell9 (server : string → result (list (gmap string string)))
    (base_url : string) : result walk :=
  let year_url := make_url base_url ["2019"; "index.json"] in
  let w := print [rule; "Building the URL for Year: 2019"; "URL Link: " +:+ year_url]
             (Walk [] []) in
  p ←? fetch server year_url w;
  quarter_loop server base_url (PyList.slice 0 1 p.1) p.2.

(** Listings served for the examples: a company with five filings of two
    documents each, and a year with two quarters of twelve files. *)
Definition entry (name type : string) : gmap string string :=
  <["type" := type]> (<["name" := name]> ∅).

Definition sample_server (url : string) : result (list (gmap string string)) :=
  if String.eqb url "https://www.sec.gov/Archives/edgar/data/886982/index.json"
  then Ok [entry "f0" "folder.gif"; entry "f1" "folder.gif"; entry "f2" "folder.gif";
           entry "f3" "folder.gif"; entry "f4" "folder.gif"]
  else if String.eqb url "https://www.sec.gov/Archives/edgar/daily-index/2019/index.json"
  then Ok [entry "QTR1" "dir"; entry "QTR2" "dir"]
  else if String.eqb url "https://www.sec.gov/Archives/edgar/daily-index/2019/QTR1/index.json"
  then Ok ((λ n, entry n "file") <$>
           ["i01"; "i02"; "i03"; "i04"; "i05"; "i06"; "i07"; "i08"; "i09"; "i10";
            "i11"; "i12"])
  else Ok [entry "a.htm" "text.gif"; entry "b.jpg" "image2.gif"].

(** The URL the document loop of cell 5 prints for a document, and the
    documents it prints it for. *)
Definition document_url (base_url cik_num filing_number : string)
    (document : gmap string string) : string :=
  make_url base_url [cik_num; filing_number; default "" (document !! "name")].

Definition shown (document : gmap string string) : Prop :=
  document !! "type" ≠ Some "image2.gif".

Global Instance shown_dec (document : gmap string string) : Decision (shown document).
Proof. unfold shown. apply _. Defined.

(** The listing cell 7 requests for a filing. *)
Definition listing_url (base_url cik_num : string) (filing : gmap string string) : string :=
  make_url base_url [cik_num; default "" (filing !! "name"); "index.json"].

(** ** The wording of the specification, for comparison with the code *)

(** "base, then each segment appended in order separated by a single
    path-separator character" *)
Definition joined (base : string) (segments : list string) : string :=
  base +:+ foldr (λ segment rest, "/" +:+ segment +:+ rest) "" segments.

(** "all [c] characters removed" *)
Fixpoint without_char (c : ascii) (s : string) : string :=
  match s with
  | "" => ""
  | String x s' => if Ascii.eqb x c then without_char c s' else String x (without_char c s')
  end.

(** A decimal digit. *)
Definition is_digit (c : ascii) : bool :=
  match Ascii.is_nat c with
  | Some _ => true
  | None => false
  end.

(** A DocumentRecord: a dictionary that stores the five fields of a Filing
    under their fixed keys. *)
Definition stores (d : gmap string string) (fields : list string) : Prop :=
  d !! "cik_number" = fields !! 0 ∧
  d !! "company_name" = fields !! 1 ∧
  d !! "form_id" = fields !! 2 ∧
  d !! "date" = fields !! 3 ∧
  d !! "file_url" = fields !! 4.

Definition DocumentRecord (d : gmap string string) : Prop :=
  ∃ fields, length fields = 5 ∧ stores d fields.

(** "case-sensitive exact match on formType" *)
Definition has_form (form : string) (d : gmap string string) : Prop :=
  d !! "form_id" = Some form.

Global Instance has_form_dec (form : string) (d : gmap string string) :
  Decision (has_form form d).
Proof. unfold has_form. apply _. Defined.

(** ** Sample data: rows and records of the notebook's output *)

Definition filing_form4 : list string :=
  ["1236397"; "BRADBURY DANIEL"; "4"; "20190401";
   "https://www.sec.gov/Archives/edgar/data/1236397/0000886744-19-000047.txt"].

Definition filing_10K : list string :=
  ["1263364"; "Joway Health Industries Group Inc"; "10-K"; "20190401";
   "https://www.sec.gov/Archives/edgar/data/1263364/0001213900-19-005388.txt"].

(** The dictionary with the five fields of a row. *)
Definition record_of (fields : list string) : gmap string string :=
  list_to_map (zip ["cik_number"; "company_name"; "form_id"; "date"; "file_url"] fields).

(** A hundred form-4 records followed by one 10-K record. *)
Definition hundred_and_one : list (gmap string string) :=
  replicate 100 (record_of filing_form4) ++ [record_of filing_10K].

(** "the first chunk containing the fixed sentinel substring" *)
Definition first_sentinel (data : list string) : option nat :=
  fst <$> list_find (λ item, PyStr.contains sentinel item = true) data.

(** A text in which the sentinel occurs in two chunks. *)
Definition two_sentinels : string :=
  "Anonymous FTP: ftp://ftp.sec.gov/edgar/  h1|h2|h3|h4|h5|h6|h7|h8|"
  +:+ "1236397|BRADBURY DANIEL|4|20190401|edgar/data/1236397/0000886744-19-000047.txt"
  +:+ "  mirror of ftp://ftp.sec.gov/edgar/  end".

(** "zero records extracted": no token of the data section contains
    [.txt]. *)
Definition no_records (data_format : list string) : Prop :=
  ∀ index item, data_format !! index = Some item →
    Forall (λ row, PyStr.contains ".txt" row = false) (clean_item_data index item).

(** Every tokenised chunk of the data section is long enough for a window
    of five, or has no [.txt] token to anchor one. *)
Definition full_windows (data_format : list string) : Prop :=
  ∀ index item, data_format !! index = Some item →
    5 ≤ length (clean_item_data index item) ∨
    Forall (λ row, PyStr.contains ".txt" row = false) (clean_item_data index item).

(** A text whose last row has two spaces inside the company name and no
    line break behind it. *)
Definition short_window : string :=
  "Anonymous FTP: ftp://ftp.sec.gov/edgar/  "
  +:+ "CIK|Company Name|Form Type|Date Filed|File Name" +:+ newline
  +:+ "1236397|BRADBURY  DANIEL|4|20190401|edgar/data/1236397/0000886744-19-000047.txt".

(** The row of the scenario. *)
Definition scenario_row : string :=
  "1236397|BRADBURY DANIEL|4|20190401|edgar/data/1236397/0000886744-19-000047.txt".

(** A text with the sentinel and a data section without any row. *)
Definition header_only : string :=
  "Anonymous FTP: ftp://ftp.sec.gov/edgar/  CIK|Company Name|Form Type|Date Filed|File Name".

(** The scenario with eight residual tokens between the separator and the
    row. *)
Definition scenario : string :=
  sentinel +:+ "  " +:+ "h1|h2|h3|h4|h5|h6|h7|h8|" +:+ scenario_row.

(** A text with one 10-K row behind eight residual tokens. *)
Definition annual_report : string :=
  sentinel +:+ "  " +:+ "h1|h2|h3|h4|h5|h6|h7|h8|"
  +:+ "1263364|Joway Health Industries Group Inc|10-K|20190401|"
  +:+ "edgar/data/1263364/0001213900-19-005388.txt".

(** The global variables before cell 16 has run. *)
Definition fresh (master_data : list document) : globals :=
  Globals master_data None None None None None [].


(** ** Further wording, for the properties beyond the claims *)

(** [sep.join(l)], the inverse of [split]. *)
Fixpoint join (sep : string) (l : list string) : string :=
  match l with
  | [] => ""
  | x :: l' =>
      match l' with
      | [] => x
      | _ :: _ => x +:+ sep +:+ join sep l'
      end
  end.

(** A field free of the two characters that separate tokens. *)
Definition clean (field : string) : Prop :=
  PyStr.contains "|" field = false ∧ PyStr.contains newline field = false.

(** The row that a [.txt] token at position [index] of [toks] gives: the
    four tokens in front of it and the token behind the archive base; none
    before position 4. *)
Definition window_at (toks : list string) (index : nat) (row : string)
  : list (list string) :=
  if PyStr.contains ".txt" row && (4 <=? index)
  then [take 4 (drop (index - 4) toks) ++ [archives +:+ row]]
  else [].

(** The rows of a chunk, from left to right. *)
Definition windows (toks : list string) : list (list string) :=
  mjoin (imap (window_at toks) toks).

(** The five keys of a document dictionary. *)
Definition keys : gset string :=
  {[ "cik_number"; "company_name"; "form_id"; "date"; "file_url" ]}.

(** The entries turned into dictionaries one after the other, up to the
    first exception: what cell 14 computes, without the assignments in
    place. *)
Fixpoint dicts_of (master_data : list document) : result (list (gmap string string)) :=
  match master_data with
  | [] => Ok []
  | document :: master_data' =>
      d ←? document_dict document;
      dicts ←? dicts_of master_data';
      Ok (d :: dicts)
  end.

(** The three lines the filter loop prints for a hit. *)
Definition hit_lines (d : gmap string string) : list string :=
  [rule; default "" (d !! "company_name"); default "" (d !! "file_url")].

(** The value of a variable that every hit rebinds to [d[field]]: that of
    the last hit, or the former value when there is no hit. *)
Definition rebound (field : string) (hits : list (gmap string string))
    (before : option string) : option string :=
  match last hits with
  | Some d => d !! field
  | None => before
  end.

(** The six lines cell 16 prints behind the loop. *)
Definition url_lines (detail archive company : string) : list string :=
  [rule; "The Filing Detail can be found here: " +:+ detail;
   rule; "The Archive Folder can be found here: " +:+ archive;
   rule; "The Company Archive Folder can be found here: " +:+ company].


(** * The primitives on small inputs *)

Section python_by_example.

Example split_two_spaces :
  PyStr.split "  " "a    b   c" = ["a"; ""; "b"; " c"] ∧ PyStr.split "  " "" = [""].
Proof. by vm_compute. Qed.

Example replace_leftmost :
  PyStr.replace ".txt" "" "a.t.txtxt.txt" = "a.txt" ∧
  PyStr.replace "aa" "b" "aaa" = "ba".
Proof. by vm_compute. Qed.

Example rpartition_last :
  PyStr.rpartition "/" "a/b/c.txt" = ("a/b", "/", "c.txt") ∧
  PyStr.rpartition "/" "c.txt" = ("", "", "c.txt").
Proof. by vm_compute. Qed.

(** [l[-4:1]], [l[-1:4]] and [l[0:5]] on lists of one, four and five
    items. *)
Example slice_negative_start :
  PyList.slice (-4) 1 ["a"] = ["a"] ∧
  PyList.slice (-1) 4 ["a"; "b"; "c"; "d"] = ["d"] ∧
  PyList.slice (-4) 1 ["a"; "b"; "c"; "d"; "e"] = [] ∧
  PyList.slice 0 5 ["a"; "b"; "c"; "d"; "e"] = ["a"; "b"; "c"; "d"; "e"].
Proof. by vm_compute. Qed.

End python_by_example.

(** * Facts about the string primitives *)

Module PyStrFacts.
Import PyStr.

Local Arguments String.append : simpl nomatch.

Lemma str_app_nil_r (s : string) : s +:+ "" = s.
Proof. induction s as [|c s IH]; simpl; [done | by rewrite IH]. Qed.

Lemma str_app_assoc (a b c : string) : (a +:+ b) +:+ c = a +:+ b +:+ c.
Proof. induction a as [|x a IH]; simpl; [done | by rewrite IH]. Qed.

Lemma len_app (a b : string) : len (a +:+ b) = len a + len b.
Proof. induction a as [|x a IH]; simpl; [done | by f_equal]. Qed.

Lemma len_0 (s : string) : len s = 0 → s = "".
Proof. by destruct s. Qed.

Lemma slice_to_from (n : nat) (s : string) : slice_to n s +:+ slice_from n s = s.
Proof.
  revert s; induction n as [|n IH]; intros [|c s]; simpl; try done.
  by rewrite IH.
Qed.

Lemma len_slice_to (n : nat) (s : string) : len (slice_to n s) = n `min` len s.
Proof.
  revert s; induction n as [|n IH]; intros [|c s]; simpl; try done.
  by rewrite IH.
Qed.

Lemma len_slice_from (n : nat) (s : string) : len (slice_from n s) = len s - n.
Proof. revert s; induction n as [|n IH]; intros [|c s]; simpl; try done. Qed.

Lemma slice_to_app (a b : string) : slice_to (len a) (a +:+ b) = a.
Proof. induction a as [|x a IH]; simpl; [by destruct b | by rewrite IH]. Qed.

Lemma slice_from_app (a b : string) : slice_from (len a) (a +:+ b) = b.
Proof. induction a as [|x a IH]; simpl; done. Qed.

Lemma slice_to_app_le (n : nat) (a b : string) :
  n ≤ len a → slice_to n (a +:+ b) = slice_to n a.
Proof.
  revert a; induction n as [|n IH]; intros [|x a] Hn; simpl in *; try done; try lia.
  rewrite IH; [done | lia].
Qed.

Lemma slice_from_app_le (n : nat) (a b : string) :
  n ≤ len a → slice_from n (a +:+ b) = slice_from n a +:+ b.
Proof.
  revert a; induction n as [|n IH]; intros [|x a] Hn; simpl in *; try done; try lia.
  apply IH; lia.
Qed.

Lemma slice_to_app_ge (n : nat) (a b : string) :
  slice_to (len a + n) (a +:+ b) = a +:+ slice_to n b.
Proof. induction a as [|x a IH]; simpl; [done | by rewrite IH]. Qed.

Lemma slice_from_app_ge (n : nat) (a b : string) :
  slice_from (len a + n) (a +:+ b) = slice_from n b.
Proof. induction a as [|x a IH]; simpl; done. Qed.

Lemma slice_from_empty (n : nat) : slice_from n "" = "".
Proof. by destruct n. Qed.

Lemma slice_from_add (n m : nat) (s : string) :
  slice_from (n + m) s = slice_from m (slice_from n s).
Proof.
  revert s; induction n as [|n IH]; intros [|c s]; simpl; try done.
  by rewrite slice_from_empty.
Qed.

(** Two ways to cut one string: the shorter head is a prefix of the longer. *)
Lemma app_eq_app (a1 b1 a2 b2 : string) :
  a1 +:+ b1 = a2 +:+ b2 → len a1 ≤ len a2 →
  ∃ m, a2 = a1 +:+ m ∧ b1 = m +:+ b2.
Proof.
  revert a2; induction a1 as [|x a1 IH]; intros a2 Heq Hle; simpl in *.
  - by exists a2.
  - destruct a2 as [|y a2]; simpl in *; [lia|].
    injection Heq as -> Heq.
    destruct (IH a2 Heq) as (m & -> & ->); [lia|]. by exists m.
Qed.

(** *** [startswith] *)

Lemma startswith_app (p t : string) : startswith p (p +:+ t) = true.
Proof. induction p as [|c p IH]; simpl; [done | by rewrite Ascii.eqb_refl]. Qed.

Lemma startswith_inv (p s : string) :
  startswith p s = true → s = p +:+ slice_from (len p) s.
Proof.
  revert s; induction p as [|c p IH]; intros [|d s] H; simpl in *; try done.
  destruct (Ascii.eqb c d) eqn:E; [|done].
  apply Ascii.eqb_eq in E as ->. f_equal. by apply IH.
Qed.

Lemma startswith_spec (p s : string) :
  startswith p s = true ↔ ∃ t, s = p +:+ t.
Proof.
  split.
  - intros H. eexists. by apply startswith_inv.
  - intros [t ->]. apply startswith_app.
Qed.

Lemma startswith_len (p s : string) : startswith p s = true → len p ≤ len s.
Proof. intros H%startswith_inv. rewrite H, len_app. lia. Qed.

(** A pattern no longer than [a] is looked for in [a] alone. *)
Lemma startswith_app_short (p a b : string) :
  len p ≤ len a → startswith p (a +:+ b) = startswith p a.
Proof.
  revert a; induction p as [|c p IH]; intros [|x a] H; simpl in *; try done; try lia.
  destruct (Ascii.eqb c x); [apply IH; lia | done].
Qed.

(** A pattern longer than [a] that starts [a ++ b] straddles the seam. *)
Lemma startswith_app_long (p a b : string) :
  startswith p (a +:+ b) = true → len a < len p →
  startswith (slice_from (len a) p) b = true.
Proof.
  revert a; induction p as [|c p IH]; intros [|x a] H Hl; simpl in *; try done; try lia.
  destruct (Ascii.eqb c x); [apply IH; [done | lia] | done].
Qed.

(** *** [find] and [in] *)

Lemma find_empty (sub : string) : sub ≠ "" → find sub "" = None.
Proof. by destruct sub. Qed.

Lemma find_cons (sub : string) (c : ascii) (s : string) :
  find sub (String c s) =
    if startswith sub (String c s) then Some 0 else S <$> find sub s.
Proof. done. Qed.

(** The index found is an occurrence, and the leftmost one. *)
Lemma find_Some (sub s : string) (i : nat) :
  find sub s = Some i →
  startswith sub (slice_from i s) = true ∧
  ∀ j, j < i → startswith sub (slice_from j s) = false.
Proof.
  revert i; induction s as [|c s IH]; intros i.
  - simpl. destruct (startswith sub "") eqn:E; [|done].
    intros [= <-]. split; [done | lia].
  - rewrite find_cons. destruct (startswith sub (String c s)) eqn:E.
    + intros [= <-]. split; [done | lia].
    + destruct (find sub s) as [i'|] eqn:F; [|done]. intros [= <-].
      destruct (IH i' eq_refl) as [H1 H2]. split; [done|].
      intros [|j] Hj; [done|]. apply H2. lia.
Qed.

Lemma find_None (sub s : string) :
  find sub s = None → ∀ j, startswith sub (slice_from j s) = false.
Proof.
  induction s as [|c s IH].
  - simpl. destruct (startswith sub "") eqn:E; [done|]. by intros _ [|j].
  - rewrite find_cons. destruct (startswith sub (String c s)) eqn:E; [done|].
    destruct (find sub s) eqn:F; [done|]. intros _ [|j]; [done|]. by apply IH.
Qed.

Lemma find_le (sub s : string) (i : nat) : find sub s = Some i → i + len sub ≤ len s.
Proof.
  revert i; induction s as [|c s IH]; intros i.
  - simpl. destruct sub; [|done]. by intros [= <-].
  - rewrite find_cons. destruct (startswith sub (String c s)) eqn:E.
    + intros [= <-]. by apply startswith_len in E.
    + destruct (find sub s) as [i'|] eqn:F; [|done]. intros [= <-].
      specialize (IH i' eq_refl). simpl. lia.
Qed.

(** Cutting at the index found. *)
Lemma find_cut (sub s : string) (i : nat) :
  find sub s = Some i →
  s = slice_to i s +:+ sub +:+ slice_from (i + len sub) s.
Proof.
  intros [H _]%find_Some. apply startswith_inv in H.
  rewrite slice_from_add, <- H. by rewrite slice_to_from.
Qed.

(** An occurrence anywhere makes [find] succeed. *)
Lemma find_app_occ (sub a b : string) : is_Some (find sub (a +:+ sub +:+ b)).
Proof.
  induction a as [|c a IH]; simpl.
  - destruct sub as [|x sub]; simpl; [destruct b; by eexists|].
    rewrite Ascii.eqb_refl, startswith_app. by eexists.
  - destruct IH as [i ->].
    match goal with |- context [if ?b then _ else _] => destruct b end; by eexists.
Qed.

Lemma contains_spec (sub s : string) :
  contains sub s = true ↔ ∃ a b, s = a +:+ sub +:+ b.
Proof.
  unfold contains. split.
  - destruct (find sub s) as [i|] eqn:F; [|done]. intros _.
    eexists _, _. by apply find_cut.
  - intros (a & b & ->). by destruct (find_app_occ sub a b) as [i ->].
Qed.

Lemma contains_false (sub s : string) :
  contains sub s = false ↔ find sub s = None.
Proof. unfold contains. by destruct (find sub s). Qed.

(** Whatever occurs in a factor of [s] occurs in [s]. *)
Lemma contains_factor (sub a s b : string) :
  contains sub s = true → contains sub (a +:+ s +:+ b) = true.
Proof.
  rewrite !contains_spec. intros (x & y & ->).
  exists (a +:+ x), (y +:+ b). by rewrite !str_app_assoc.
Qed.

(** An occurrence inside [a] is still the leftmost one in [a ++ b]. *)
Lemma find_app_l (sub a b : string) (i : nat) :
  find sub a = Some i → find sub (a +:+ b) = Some i.
Proof.
  revert i; induction a as [|c a IH]; intros i.
  - simpl. destruct sub; [|done]. intros [= <-]. by destruct b.
  - intros H. pose proof (find_le _ _ _ H) as Hle. revert H.
    change (String c a +:+ b) with (String c (a +:+ b)). rewrite !find_cons.
    rewrite <- (startswith_app_short sub (String c a) b) by lia.
    change (String c a +:+ b) with (String c (a +:+ b)).
    destruct (startswith sub (String c (a +:+ b))); [done|].
    destruct (find sub a) as [i'|] eqn:F; [|done]. intros [= <-].
    by rewrite (IH i' eq_refl).
Qed.

Lemma find_app_r (sub a b : string) :
  find sub a = None → no_straddle sub b →
  find sub (a +:+ b) = (λ i, len a + i) <$> find sub b.
Proof.
  intros Ha Hb. induction a as [|c a IH]; simpl.
  - by destruct (find sub b).
  - revert Ha. rewrite !find_cons.
    destruct (startswith sub (String c a)) eqn:E; [done|].
    destruct (find sub a) eqn:F; [done|]. intros _.
    destruct (startswith sub (String c (a +:+ b))) eqn:E'.
    + exfalso. destruct (decide (len sub ≤ len (String c a))) as [Hl|Hl].
      * rewrite <- (startswith_app_short sub (String c a) b) in E by done.
        simpl in E. congruence.
      * apply (startswith_app_long sub (String c a) b) in E'; [|lia].
        rewrite Hb in E'; [done| simpl; lia | lia].
    + rewrite IH by done. by destruct (find sub b).
Qed.

Lemma no_straddle_char (c : ascii) (b : string) : no_straddle (String c "") b.
Proof. intros k ? ?. simpl in *. lia. Qed.

(** Before the index found there is no occurrence at all. *)
Lemma find_slice_to (sub s : string) (i : nat) :
  sub ≠ "" → find sub s = Some i → find sub (slice_to i s) = None.
Proof.
  intros Hsub H. destruct (find sub (slice_to i s)) as [j|] eqn:F; [|done].
  exfalso. pose proof (find_le _ _ _ F) as Hle.
  rewrite len_slice_to in Hle.
  apply (find_app_l _ _ (slice_from i s)) in F. rewrite slice_to_from in F.
  assert (j = i) as -> by congruence.
  destruct sub; [done|]. simpl in Hle. lia.
Qed.

(** *** [split] *)

(** Behind a cut the text is strictly shorter. *)
Lemma len_behind_cut (sub s : string) (i : nat) :
  sub ≠ "" → find sub s = Some i → len (slice_from (i + len sub) s) < len s.
Proof.
  intros Hsub H%find_le. rewrite len_slice_from.
  destruct sub; [done|]. simpl in *. lia.
Qed.

(** The counter of [split_n] does not matter once it covers the text. *)
Lemma split_n_enough (sep : string) (n m : nat) (s : string) :
  sep ≠ "" → len s ≤ n → len s ≤ m → split_n n sep s = split_n m sep s.
Proof.
  intros Hsep. revert m s; induction n as [|n IH]; intros [|m] s Hn Hm; simpl.
  - done.
  - apply Nat.le_0_r, len_0 in Hn as ->. by rewrite find_empty.
  - apply Nat.le_0_r, len_0 in Hm as ->. by rewrite find_empty.
  - destruct (find sep s) as [i|] eqn:F; [|done]. f_equal.
    pose proof (len_behind_cut _ _ _ Hsep F). apply IH; lia.
Qed.

(** The defining equation of [str.split]. *)
Lemma split_eq (sep s : string) :
  sep ≠ "" →
  split sep s =
    match find sep s with
    | None => [s]
    | Some i => slice_to i s :: split sep (slice_from (i + len sep) s)
    end.
Proof.
  intros Hsep. unfold split. destruct (len s) as [|n] eqn:E; simpl.
  - apply len_0 in E as ->. by rewrite find_empty.
  - destruct (find sep s) as [i|] eqn:F; [|done]. f_equal.
    pose proof (len_behind_cut _ _ _ Hsep F). apply split_n_enough; [done|lia..].
Qed.

(** Induction along the cuts of [split]. *)
Lemma cut_ind (sub : string) (P : string → Prop) :
  sub ≠ "" →
  (∀ s, find sub s = None → P s) →
  (∀ s i, find sub s = Some i → P (slice_from (i + len sub) s) → P s) →
  ∀ s, P s.
Proof.
  intros Hsub Hnone Hsome s.
  revert s.
  assert (∀ n s, len s < n → P s) as H.
  { induction n as [|n IHn]; intros s Hs; [lia|].
    destruct (find sub s) as [i|] eqn:F; [|by apply Hnone].
    apply (Hsome _ _ F), IHn. pose proof (len_behind_cut _ _ _ Hsub F). lia. }
  intros s. apply (H (S (len s))). lia.
Qed.

Lemma split_nonempty (sep s : string) : sep ≠ "" → split sep s ≠ [].
Proof. intros Hsep. rewrite split_eq by done. by destruct (find sep s). Qed.

(** Every chunk is a factor of the text. *)
Lemma split_factor (sep s chunk : string) :
  sep ≠ "" → chunk ∈ split sep s → ∃ a b, s = a +:+ chunk +:+ b.
Proof.
  intros Hsep. revert s. apply (cut_ind sep (λ s, chunk ∈ split sep s → _) Hsep).
  - intros s F. rewrite split_eq, F by done. intros ->%list_elem_of_singleton.
    exists "", "". by rewrite str_app_nil_r.
  - intros s i F IH. rewrite split_eq, F by done.
    intros [->|Hin]%elem_of_cons.
    + exists "", (slice_from i s). simpl. by rewrite slice_to_from.
    + destruct (IH Hin) as (a & b & Hab).
      exists (slice_to (i + len sep) s +:+ a), b.
      rewrite str_app_assoc, <- Hab. by rewrite slice_to_from.
Qed.

(** When the separator first occurs at the end of [p], the first chunk
    is [p]. *)
Lemma split_head (sep p t : string) :
  sep ≠ "" → find sep p = None → no_straddle sep (sep +:+ t) →
  split sep (p +:+ sep +:+ t) !! 0 = Some p.
Proof.
  intros Hsep Hp Hs. rewrite split_eq by done.
  rewrite (find_app_r _ _ _ Hp Hs).
  destruct (find_app_occ sep "" t) as [i Hi]. simpl in Hi.
  pose proof (find_Some _ _ _ Hi) as [_ Hmin].
  destruct i as [|i].
  2: { specialize (Hmin 0 ltac:(lia)). simpl in Hmin. by rewrite startswith_app in Hmin. }
  rewrite Hi. simpl. by rewrite Nat.add_0_r, slice_to_app.
Qed.

(** *** [replace] *)

Lemma replace_n_enough (old new : string) (n m : nat) (s : string) :
  old ≠ "" → len s ≤ n → len s ≤ m → replace_n n old new s = replace_n m old new s.
Proof.
  intros Hold. revert m s; induction n as [|n IH]; intros [|m] s Hn Hm; simpl.
  - done.
  - apply Nat.le_0_r, len_0 in Hn as ->. by rewrite find_empty.
  - apply Nat.le_0_r, len_0 in Hm as ->. by rewrite find_empty.
  - destruct (find old s) as [i|] eqn:F; [|done]. do 2 f_equal.
    pose proof (len_behind_cut _ _ _ Hold F). apply IH; lia.
Qed.

(** The defining equation of [str.replace]. *)
Lemma replace_eq (old new s : string) :
  old ≠ "" →
  replace old new s =
    match find old s with
    | None => s
    | Some i => slice_to i s +:+ new +:+ replace old new (slice_from (i + len old) s)
    end.
Proof.
  intros Hold. unfold replace. destruct (len s) as [|n] eqn:E; simpl.
  - apply len_0 in E as ->. by rewrite find_empty.
  - destruct (find old s) as [i|] eqn:F; [|done]. do 2 f_equal.
    pose proof (len_behind_cut _ _ _ Hold F). apply replace_n_enough; [done|lia..].
Qed.

Lemma replace_absent (old new s : string) :
  old ≠ "" → find old s = None → replace old new s = s.
Proof. intros Hold F. by rewrite replace_eq, F. Qed.

(** Replacement works on both sides of a seam that no occurrence
    straddles. *)
Lemma replace_app (old new a b : string) :
  old ≠ "" → no_straddle old b →
  replace old new (a +:+ b) = replace old new a +:+ replace old new b.
Proof.
  intros Hold Hb. revert a.
  apply (cut_ind old (λ a, replace old new (a +:+ b) = _) Hold).
  - intros a F. rewrite (replace_eq _ _ (a +:+ b)), (find_app_r _ _ _ F Hb) by done.
    rewrite (replace_absent _ _ a), (replace_eq _ _ b) by done.
    destruct (find old b) as [i|]; simpl; [|done].
    by rewrite slice_to_app_ge, <- Nat.add_assoc, slice_from_app_ge, str_app_assoc.
  - intros a i F IH. pose proof (find_le _ _ _ F) as Hle.
    rewrite (replace_eq _ _ (a +:+ b)), (find_app_l _ _ b _ F) by done.
    rewrite (replace_eq _ _ a), F by done.
    rewrite slice_to_app_le, slice_from_app_le, IH by lia.
    by rewrite !str_app_assoc.
Qed.

(** Deleting a character leaves no occurrence of it. *)
Lemma replace_char_free (old s : string) :
  len old = 1 → contains old (replace old "" s) = false.
Proof.
  intros Hlen. assert (old ≠ "") as Hold by (by intros ->).
  assert (∀ b, no_straddle old b) as Hns by (intros b k ? ?; lia).
  revert s. apply (cut_ind old (λ s, contains old (replace old "" s) = false) Hold).
  - intros s F. by rewrite replace_absent, contains_false.
  - intros s i F IH. rewrite replace_eq, F by done.
    apply contains_false. apply contains_false in IH.
    change ("" +:+ ?x) with x.
    rewrite find_app_r, IH; [done|by apply find_slice_to|apply Hns].
Qed.

(** *** [rfind] and [rpartition] *)

Lemma rfind_cons (sub : string) (c : ascii) (s : string) :
  rfind sub (String c s) =
    match rfind sub s with
    | Some i => Some (S i)
    | None => if startswith sub (String c s) then Some 0 else None
    end.
Proof. done. Qed.

(** An occurrence further right wins. *)
Lemma rfind_app (sub a b : string) (i : nat) :
  rfind sub b = Some i → rfind sub (a +:+ b) = Some (len a + i).
Proof.
  intros Hb. induction a as [|c a IH]; [done|].
  change (String c a +:+ b) with (String c (a +:+ b)). by rewrite rfind_cons, IH.
Qed.

Lemma rfind_absent (sub s : string) : find sub s = None → rfind sub s = None.
Proof.
  induction s as [|c s IH].
  - simpl. by destruct (startswith sub "").
  - rewrite find_cons, rfind_cons.
    destruct (startswith sub (String c s)); [done|].
    destruct (find sub s); [done|]. by rewrite IH.
Qed.

Lemma rfind_None (sub s : string) : rfind sub s = None → find sub s = None.
Proof.
  induction s as [|c s IH].
  - simpl. by destruct (startswith sub "").
  - rewrite find_cons, rfind_cons.
    destruct (rfind sub s); [done|].
    destruct (startswith sub (String c s)); [done|]. by rewrite IH.
Qed.

(** What is found contains the pattern, and behind the last occurrence of a
    character there is none. *)
Lemma rfind_char_Some (c : ascii) (s : string) (i : nat) :
  rfind (String c "") s = Some i →
  s = slice_to i s +:+ String c (slice_from (S i) s) ∧
  find (String c "") (slice_from (S i) s) = None.
Proof.
  revert i; induction s as [|x s IH]; intros i; [done|].
  rewrite rfind_cons. destruct (rfind (String c "") s) as [i'|] eqn:E.
  - intros [= <-]. destruct (IH i' eq_refl) as [H1 H2].
    change (slice_to (S i') (String x s)) with (String x (slice_to i' s)).
    change (slice_from (S (S i')) (String x s)) with (slice_from (S i') s).
    split; [|done]. change (String x s = String x (slice_to i' s +:+ String c (slice_from (S i') s))).
    by f_equal.
  - simpl. destruct (Ascii.eqb c x) eqn:Ec; [|done]. intros [= <-].
    apply Ascii.eqb_eq in Ec as ->. simpl. split; [done|]. by apply rfind_None.
Qed.

Lemma rpartition_char_Some (c : ascii) (s : string) :
  contains (String c "") s = true →
  ∃ head tail, rpartition (String c "") s = (head, String c "", tail) ∧
               s = head +:+ String c tail ∧
               contains (String c "") tail = false.
Proof.
  intros Hs. unfold rpartition.
  destruct (rfind (String c "") s) as [i|] eqn:E.
  - destruct (rfind_char_Some _ _ _ E) as [H1 H2].
    exists (slice_to i s), (slice_from (S i) s).
    change (len (String c "")) with 1.
    rewrite Nat.add_1_r. by rewrite contains_false.
  - apply rfind_None in E. apply contains_false in E. congruence.
Qed.

(** Around the last occurrence of a one-character separator. *)
Lemma rpartition_char (c : ascii) (head tail : string) :
  find (String c "") tail = None →
  rpartition (String c "") (head +:+ String c tail) = (head, String c "", tail).
Proof.
  intros F%rfind_absent. unfold rpartition.
  rewrite (rfind_app _ head (String c tail) 0).
  - rewrite Nat.add_0_r, slice_to_app.
    by rewrite (slice_from_app_ge (len (String c "")) head (String c tail)).
  - rewrite rfind_cons, F. simpl. by rewrite Ascii.eqb_refl.
Qed.

(** *** [endswith] *)

Lemma endswith_spec (p s : string) : endswith p s = true ↔ ∃ a, s = a +:+ p.
Proof.
  unfold endswith. rewrite andb_true_iff, Nat.leb_le, String.eqb_eq. split.
  - intros [_ <-]. eexists. symmetry. apply slice_to_from.
  - intros [a ->]. rewrite len_app. split; [lia|].
    replace (len a + len p - len p) with (len a) by lia. apply slice_from_app.
Qed.

(** *** Deleting one character *)

Lemma replace_char_single (c x : ascii) :
  replace (String c "") "" (String x "") = if Ascii.eqb x c then "" else String x "".
Proof.
  unfold replace. simpl. rewrite (Ascii.eqb_sym c x).
  by destruct (Ascii.eqb x c).
Qed.

(** [s.replace(c, '')] removes every [c]. *)
Lemma replace_char_without (c : ascii) (s : string) :
  replace (String c "") "" s = without_char c s.
Proof.
  induction s as [|x s IH]; [done|].
  change (String x s) with (String x "" +:+ s).
  rewrite replace_app, replace_char_single, IH by (done || apply no_straddle_char).
  simpl. by destruct (Ascii.eqb x c).
Qed.

Lemma without_char_app (c : ascii) (a b : string) :
  without_char c (a +:+ b) = without_char c a +:+ without_char c b.
Proof.
  induction a as [|x a IH]; simpl; [done|].
  destruct (Ascii.eqb x c); simpl; by rewrite IH.
Qed.

(** *** The last character *)

Lemma app_char_inj (a b : string) (x y : ascii) :
  a +:+ String x "" = b +:+ String y "" → a = b ∧ x = y.
Proof.
  revert b; induction a as [|c a IH]; intros [|d b] H; simpl in *.
  - by injection H.
  - injection H as -> H. by destruct b.
  - injection H as -> H. by destruct a.
  - injection H as -> H. by destruct (IH b H) as [-> ->].
Qed.

(** What ends a text that ends in [x] ends in [x] itself. *)
Lemma endswith_last (p a : string) (x y : ascii) :
  endswith (p +:+ String y "") (a +:+ String x "") = true → x = y.
Proof.
  intros [b H]%endswith_spec. rewrite <- str_app_assoc in H.
  by apply app_char_inj in H as [_ ->].
Qed.

(** *** Chunks and [join] *)

(** No chunk contains the separator. *)
Lemma split_free (sep s : string) :
  sep ≠ "" → Forall (λ chunk, contains sep chunk = false) (split sep s).
Proof.
  intros Hsep. revert s. apply (cut_ind sep (λ s, Forall _ (split sep s)) Hsep).
  - intros s F. rewrite split_eq, F by done. constructor; [|done].
    by apply contains_false.
  - intros s i F IH. rewrite split_eq, F by done. constructor; [|done].
    by apply contains_false, find_slice_to.
Qed.

(** Joining the chunks with the separator gives the text back. *)
Lemma join_split (sep s : string) : sep ≠ "" → join sep (split sep s) = s.
Proof.
  intros Hsep. revert s. apply (cut_ind sep (λ s, join sep (split sep s) = s) Hsep).
  - intros s F. by rewrite split_eq, F.
  - intros s i F IH. rewrite split_eq, F by done.
    pose proof (split_nonempty sep (slice_from (i + len sep) s) Hsep) as Hne.
    cbn [join]. destruct (split sep (slice_from (i + len sep) s)) as [|x l] eqn:E; [done|].
    rewrite IH. symmetry. by apply find_cut.
Qed.

(** Every chunk is in the list at a position, and a factor of the text. *)
Lemma split_lookup_factor (sep s chunk : string) (i : nat) :
  sep ≠ "" → split sep s !! i = Some chunk → ∃ a b, s = a +:+ chunk +:+ b.
Proof. intros Hsep Hi. apply (split_factor sep); [done|]. by eapply list_elem_of_lookup_2. Qed.

(** Replacing a character by a text without it leaves no occurrence. *)
Lemma replace_free (old new s : string) :
  len old = 1 → contains old new = false → contains old (replace old new s) = false.
Proof.
  intros Hlen Hnew. assert (old ≠ "") as Hold by (by intros ->).
  assert (∀ b, no_straddle old b) as Hns by (intros b k ? ?; lia).
  revert s. apply (cut_ind old (λ s, contains old (replace old new s) = false) Hold).
  - intros s F. by rewrite replace_absent, contains_false.
  - intros s i F IH. rewrite replace_eq, F by done.
    apply contains_false. apply contains_false in IH. apply contains_false in Hnew.
    rewrite find_app_r; [|by apply find_slice_to|apply Hns].
    rewrite find_app_r, IH; [done|done|apply Hns].
Qed.

(** What does not occur in the text does not occur in a factor of it. *)
Lemma contains_factor_false (sub a s b : string) :
  contains sub (a +:+ s +:+ b) = false → contains sub s = false.
Proof.
  intros H. destruct (contains sub s) eqn:E; [|done].
  by rewrite (contains_factor sub a s b E) in H.
Qed.

(** A character occurs in [a ++ b] only if it occurs in [a] or in [b]. *)
Lemma contains_char_app (c : ascii) (a b : string) :
  contains (String c "") a = false → contains (String c "") b = false →
  contains (String c "") (a +:+ b) = false.
Proof.
  rewrite !contains_false. intros Ha Hb.
  rewrite find_app_r, Hb; [done|done|apply no_straddle_char].
Qed.

End PyStrFacts.

(** * The URL builder *)

Section url_builder.
Local Arguments String.append : simpl nomatch.
Import PyStrFacts.

Example make_url_example :
  make_url "https://www.sec.gov/Archives/edgar/data"
    ["886982"; "000156459019011378"; "0001564590-19-011378-index-headers.html"]
  = "https://www.sec.gov/Archives/edgar/data/886982/000156459019011378/0001564590-19-011378-index-headers.html".
Proof. reflexivity. Qed.

(** C9: [make_url] is total and returns the base followed by every
    component in order, each behind exactly one ["/"], the components
    themselves being copied verbatim; with no component the base comes back
    unchanged. *)
Theorem make_url_joined (base_url : string) (comp : list string) :
  make_url base_url comp = joined base_url comp ∧ make_url base_url [] = base_url.
Proof.
  split; [|done]. unfold make_url, joined.
  revert base_url. induction comp as [|r comp IH]; intros base_url; simpl.
  - by rewrite str_app_nil_r.
  - by rewrite IH, !str_app_assoc.
Qed.

End url_builder.

(** * The three URLs derived in cell 16 *)

Section derived_urls.
Local Arguments String.append : simpl nomatch.
Import PyStr PyStrFacts.

Example derived_urls_of_the_notebook :
  let docu_url :=
    "https://www.sec.gov/Archives/edgar/data/1263364/0001213900-19-005388.txt" in
  file_url_archive docu_url
    = Ok "https://www.sec.gov/Archives/edgar/data/1263364/0001213900-19-005388-index.htm" ∧
  archive_url docu_url
    = "https://www.sec.gov/Archives/edgar/data/1263364/000121390019005388" ∧
  (company_url docu_url).1.1 = "https://www.sec.gov/Archives/edgar/data/1263364".
Proof. by vm_compute. Qed.

(** [split] always returns at least one chunk, so [file_url_adj[0]] is
    there. *)
Lemma file_url_archive_total (docu_url : string) :
  ∃ url, file_url_archive docu_url = Ok url.
Proof.
  unfold file_url_archive.
  pose proof (split_nonempty ".txt" docu_url ltac:(done)).
  destruct (split ".txt" docu_url); [done|]. by eexists.
Qed.

Lemma no_straddle_txt_txt (t : string) : no_straddle ".txt" (".txt" +:+ t).
Proof. intros [|[|[|[|k]]]] ? ?; simpl in *; done || lia. Qed.

(** The text in front of the first [/]-free tail. *)
Lemma company_url_last_slash (head file : string) :
  contains "/" file = false →
  company_url (head +:+ "/" +:+ file) = (head, "/", file).
Proof. intros F%contains_false. by apply rpartition_char. Qed.

(** C7: for every document reference with a ["/"], an absolute URL in
    particular, the issuer folder is the reference cut at its last ["/"],
    the file name behind it dropped whole, and it is a strict prefix of the
    reference; for a reference of the shape [R/CIK/ACCESSION.txt] it is
    [R/CIK], the prefix up to and including the CIK segment. *)
Theorem company_url_issuer_folder (docu_url : string) :
  contains "/" docu_url = true →
  ∃ head file,
    company_url docu_url = (head, "/", file) ∧
    docu_url = head +:+ "/" +:+ file ∧
    contains "/" file = false ∧
    startswith head docu_url = true ∧ head ≠ docu_url ∧
    ∀ R cik accession,
      docu_url = R +:+ "/" +:+ cik +:+ "/" +:+ accession +:+ ".txt" →
      contains "/" accession = false →
      head = R +:+ "/" +:+ cik.
Proof.
  intros (head & file & E & Hcut & Hfile)%rpartition_char_Some.
  exists head, file. split; [done|]. split; [done|]. split; [done|].
  split; [rewrite Hcut; apply startswith_app|]. split.
  - intros H. apply (f_equal len) in H. rewrite Hcut, len_app in H. simpl in H. lia.
  - intros R cik accession Hshape Hacc.
    assert (company_url docu_url = (R +:+ "/" +:+ cik, "/", accession +:+ ".txt")) as E'.
    { rewrite Hshape, <- (str_app_assoc R "/"), <- (str_app_assoc (R +:+ "/") cik).
      rewrite (str_app_assoc R "/" cik).
      apply company_url_last_slash.
      apply contains_false. apply contains_false in Hacc.
      rewrite find_app_r; [done|done|]. intros k ? ?; simpl in *; lia. }
    unfold company_url in E'. congruence.
Qed.

Lemma company_url_issuer_folder_witness :
  (company_url "https://www.sec.gov/Archives/edgar/data/1263364/0001213900-19-005388.txt").1.1
  = "https://www.sec.gov/Archives/edgar/data/1263364".
Proof.
  destruct (company_url_issuer_folder
              "https://www.sec.gov/Archives/edgar/data/1263364/0001213900-19-005388.txt"
              eq_refl) as (head & file & E & _ & _ & _ & _ & H).
  rewrite E. simpl.
  exact (H "https://www.sec.gov/Archives/edgar/data" "1263364" "0001213900-19-005388"
           eq_refl eq_refl).
Defined.

(** C6, as stated, fails: [split('.txt')[0]] keeps the text in front of the
    FIRST [.txt], so a reference with an earlier [.txt] loses everything
    behind it. *)
Lemma file_url_archive_first_txt :
  let p := "https://www.sec.gov/Archives/edgar/data/notes.txt/0001213900-19-005388" in
  file_url_archive (p +:+ ".txt")
    = Ok "https://www.sec.gov/Archives/edgar/data/notes-index.htm" ∧
  file_url_archive (p +:+ ".txt") ≠ Ok (p +:+ "-index.htm").
Proof. split; [by vm_compute | by vm_compute]. Qed.

(** C6, amended: when [.txt] occurs in the document reference only as its
    suffix, the detail URL is the reference with that suffix replaced by
    [-index.htm], the text in front of it unchanged. *)
Theorem file_url_archive_suffix (p : string) :
  contains ".txt" p = false →
  file_url_archive (p +:+ ".txt") = Ok (p +:+ "-index.htm").
Proof.
  intros F%contains_false. unfold file_url_archive.
  rewrite <- (str_app_nil_r ".txt") at 2.
  rewrite split_head; [done|done|done|apply no_straddle_txt_txt].
Qed.

Lemma file_url_archive_suffix_witness :
  file_url_archive
    ("https://www.sec.gov/Archives/edgar/data/1263364/0001213900-19-005388" +:+ ".txt")
  = Ok ("https://www.sec.gov/Archives/edgar/data/1263364/0001213900-19-005388"
        +:+ "-index.htm").
Proof. apply file_url_archive_suffix. reflexivity. Defined.

(** *** The archive folder *)

Lemma archive_url_without (docu_url : string) :
  archive_url docu_url = without_char "-" (replace ".txt" "" docu_url).
Proof. unfold archive_url. apply replace_char_without. Qed.

Lemma archive_url_no_dash (docu_url : string) :
  contains "-" (archive_url docu_url) = false.
Proof. unfold archive_url. by apply replace_char_free. Qed.

(** In front of a text that starts with none of [t], [x], the scan for
    [.txt] stops at the seam. *)
Lemma archive_url_app (a b : string) :
  no_straddle ".txt" b → archive_url (a +:+ b) = archive_url a +:+ archive_url b.
Proof.
  intros Hb. rewrite !archive_url_without, replace_app by done.
  apply without_char_app.
Qed.

Lemma no_straddle_txt_digit (d : ascii) (t : string) :
  is_digit d = true → no_straddle ".txt" (String d t).
Proof.
  intros Hd [|[|[|[|k]]]] ? ?; simpl in *; try lia;
    destruct d as [[] [] [] [] [] [] [] []]; done.
Qed.

Lemma archive_url_digit_txt (d : ascii) :
  is_digit d = true → archive_url (String d ".txt") = String d "".
Proof. destruct d as [[] [] [] [] [] [] [] []]; done. Qed.

(** C5, as stated, fails: deleting the dashes can join the pieces of a new
    [.txt] suffix.  The reference below is one the parser emits. *)
Lemma archive_url_txt_suffix :
  let docu_url :=
    "https://www.sec.gov/Archives/edgar/data/1263364/0001213900-19-005388.t-xt.txt" in
  parse ("Anonymous FTP: ftp://ftp.sec.gov/edgar/  h1|h2|h3|h4|h5|h6|h7|h8|"
         +:+ "1263364|Joway Health Industries Group Inc|10-K|20190401|"
         +:+ "edgar/data/1263364/0001213900-19-005388.t-xt.txt")
    = Ok [["1263364"; "Joway Health Industries Group Inc"; "10-K"; "20190401"; docu_url]] ∧
  endswith ".txt" docu_url = true ∧
  archive_url docu_url
    = "https://www.sec.gov/Archives/edgar/data/1263364/000121390019005388.txt" ∧
  endswith ".txt" (archive_url docu_url) = true.
Proof. repeat split; by vm_compute. Qed.

(** C5, amended: the archive folder URL is the document reference with
    every [.txt] removed, from left to right, and then every dash removed;
    it contains no dash.  When the character in front of the trailing [.txt]
    is a decimal digit, as in every accession number, the result ends in
    that digit and so not in [.txt].  A reference ending in
    [1239188/0001144204-19-017485.txt] gives a folder ending in
    [1239188/000114420419017485]. *)
Theorem archive_url_amended (docu_url : string) :
  archive_url docu_url = without_char "-" (replace ".txt" "" docu_url) ∧
  contains "-" (archive_url docu_url) = false ∧
  (∀ p d, docu_url = p +:+ String d ".txt" → is_digit d = true →
     archive_url docu_url = archive_url p +:+ String d "" ∧
     endswith ".txt" (archive_url docu_url) = false) ∧
  (∀ p, docu_url = p +:+ "1239188/0001144204-19-017485.txt" →
     archive_url docu_url = archive_url p +:+ "1239188/000114420419017485").
Proof.
  split; [apply archive_url_without|]. split; [apply archive_url_no_dash|]. split.
  - intros p d -> Hd.
    assert (archive_url (p +:+ String d ".txt") = archive_url p +:+ String d "") as E.
    { rewrite archive_url_app by (by apply no_straddle_txt_digit).
      by rewrite archive_url_digit_txt. }
    split; [done|]. rewrite E.
    destruct (endswith ".txt" _) eqn:F; [|done].
    apply (endswith_last ".tx" _ d "t") in F. by subst d.
  - intros p ->. rewrite archive_url_app; [done|].
    intros [|[|[|[|k]]]] ? ?; simpl in *; done || lia.
Qed.

Lemma archive_url_amended_witness :
  archive_url "https://www.sec.gov/Archives/edgar/data/1239188/0001144204-19-017485.txt"
    = "https://www.sec.gov/Archives/edgar/data/1239188/000114420419017485" ∧
  endswith ".txt"
    (archive_url "https://www.sec.gov/Archives/edgar/data/1239188/0001144204-19-017485.txt")
    = false.
Proof.
  destruct (archive_url_amended
              "https://www.sec.gov/Archives/edgar/data/1239188/0001144204-19-017485.txt")
    as (_ & _ & Hdigit & Hscenario).
  split.
  - exact (Hscenario "https://www.sec.gov/Archives/edgar/data/" eq_refl).
  - exact (proj2 (Hdigit "https://www.sec.gov/Archives/edgar/data/1239188/0001144204-19-01748"
                    "5"%char eq_refl eq_refl)).
Defined.

End derived_urls.

(** * Cell 14: rows into dictionaries *)

Section dictionaries.

Lemma length_5_inv (fields : list string) :
  length fields = 5 → ∃ c n f d u, fields = [c; n; f; d; u].
Proof.
  destruct fields as [|c [|n [|f [|d [|u [|? ?]]]]]]; try done. by eexists _, _, _, _, _.
Qed.

(** On a row of five fields the body of the loop succeeds and stores each
    field under its key. *)
Lemma document_dict_row (fields : list string) :
  length fields = 5 →
  ∃ d, document_dict (Row fields) = Ok d ∧ stores d fields.
Proof.
  intros (c & n & f & dt & u & ->)%length_5_inv. eexists. split; [done|].
  by repeat split.
Qed.

(** The loop turns the entries into dictionaries from left to right:
    [dicts] are done, [rows] are still to do. *)
Lemma dict_loop_rows (rows : list (list string)) (dicts : list (gmap string string)) :
  Forall (λ fields, length fields = 5) rows →
  ∃ dicts', dict_loop (length rows) (length dicts) ((Dict <$> dicts) ++ (Row <$> rows))
              = Ok (Dict <$> (dicts ++ dicts')) ∧
            Forall2 stores dicts' rows.
Proof.
  intros Hrows. revert dicts. induction Hrows as [|fields rows Hf _ IH]; intros dicts.
  - exists []. simpl. by rewrite !app_nil_r.
  - destruct (document_dict_row fields Hf) as (d & Ed & Hd).
    destruct (IH (dicts ++ [d])) as (dicts' & E & H').
    exists (d :: dicts'). split; [|by constructor].
    assert (((Dict <$> dicts) ++ (Row <$> fields :: rows)) !! length dicts
            = Some (Row fields)) as El.
    { rewrite lookup_app_r by by rewrite length_fmap.
      by rewrite length_fmap, Nat.sub_diag. }
    assert (<[length dicts := Dict d]> ((Dict <$> dicts) ++ (Row <$> fields :: rows))
            = (Dict <$> dicts ++ [d]) ++ (Row <$> rows)) as Ei.
    { replace (length dicts) with (length (Dict <$> dicts) + 0)
        by (rewrite length_fmap; lia).
      rewrite insert_app_r, fmap_app, <- app_assoc. done. }
    cbn [length dict_loop]. rewrite El, Ed. cbn [bind]. rewrite Ei.
    rewrite length_app, Nat.add_1_r in E. rewrite E.
    by rewrite <- app_assoc.
Qed.

Lemma cell14_rows (rows : list (list string)) :
  Forall (λ fields, length fields = 5) rows →
  ∃ dicts, cell14 (Row <$> rows) = Ok (Dict <$> dicts) ∧ Forall2 stores dicts rows.
Proof.
  intros Hrows. destruct (dict_loop_rows rows [] Hrows) as (dicts & E & H).
  exists dicts. unfold cell14. by rewrite length_fmap.
Qed.

End dictionaries.

(** * Cell 16: the filter loop *)

Section filter_loop.

(** [master_data[0:n]] is the first [n] entries. *)
Lemma slice_0 {A : Type} (n : nat) (l : list A) : PyList.slice 0 (Z.of_nat n) l = take n l.
Proof.
  unfold PyList.slice, PyList.bound.
  destruct (Z.ltb_spec 0 0) as [?|_]; [lia|].
  destruct (Z.ltb_spec (Z.of_nat n) 0) as [?|_]; [lia|].
  rewrite Nat2Z.id. change (Z.to_nat 0) with 0. rewrite Nat.min_0_l, Nat.sub_0_r.
  rewrite drop_0. destruct (decide (n ≤ length l)).
  - by rewrite Nat.min_l.
  - rewrite Nat.min_r by lia.
    rewrite (take_ge l n), (take_ge l (length l)) by lia. done.
Qed.

Lemma DocumentRecord_keys (d : gmap string string) :
  DocumentRecord d →
  ∃ form_id name url,
    d !! "form_id" = Some form_id ∧ d !! "company_name" = Some name ∧
    d !! "file_url" = Some url.
Proof.
  intros (fields & (c & n & f & dt & u & ->)%length_5_inv & H).
  destruct H as (_ & Hn & Hf & _ & Hu). by exists f, n, u.
Qed.

(** One turn on a well-formed dictionary: a hit exactly when its form type
    is the one asked for. *)
Lemma scan_step_record (form : string) (d : gmap string string) (st : scan) :
  DocumentRecord d →
  ∃ st', scan_step form (Dict d) st = Ok st' ∧
         hits st' = hits st ++ filter (has_form form) [d].
Proof.
  intros (form_id & name & url & Hf & Hn & Hu)%DocumentRecord_keys.
  unfold scan_step, getitem_str. rewrite Hf. cbn [bind].
  rewrite filter_cons, filter_nil.
  destruct (decide (has_form form d)) as [Hh|Hh]; unfold has_form in Hh.
  - rewrite bool_decide_true, Hn, Hu by congruence. cbn [bind]. by eexists.
  - rewrite bool_decide_false by congruence. exists st. by rewrite app_nil_r.
Qed.

Lemma scan_loop_records (form : string) (records : list (gmap string string))
    (st : scan) :
  Forall DocumentRecord records →
  ∃ st', scan_loop form (Dict <$> records) st = Ok st' ∧
         hits st' = hits st ++ filter (has_form form) records.
Proof.
  intros Hrec. revert st. induction Hrec as [|d records Hd _ IH]; intros st.
  - exists st. by rewrite filter_nil, app_nil_r.
  - destruct (scan_step_record form d st Hd) as (st1 & E1 & H1).
    destruct (IH st1) as (st2 & E2 & H2).
    exists st2. cbn [fmap list_fmap scan_loop]. rewrite E1. cbn [bind].
    split; [done|].
    rewrite H2, H1, <- app_assoc. f_equal.
    by rewrite (filter_app _ [d] records).
Qed.

(** [docu_url] is left at the reference of the last hit. *)
Lemma scan_loop_docu_url (form : string) (records : list (gmap string string))
    (st st' : scan) :
  Forall DocumentRecord records →
  scan_loop form (Dict <$> records) st = Ok st' →
  docu_url st' =
    match last (filter (has_form form) records) with
    | Some d => d !! "file_url"
    | None => docu_url st
    end.
Proof.
  intros Hrec. revert st. induction Hrec as [|d records Hd _ IH]; intros st.
  - by intros [= <-].
  - cbn [fmap list_fmap scan_loop].
    destruct (scan_step form (Dict d) st) as [st1|e] eqn:E1; [|done]. cbn [bind].
    intros Hloop. rewrite (IH _ Hloop), filter_cons.
    apply DocumentRecord_keys in Hd as (form_id & name & url & Hf & Hn & Hu).
    unfold scan_step, getitem_str in E1. rewrite Hf in E1. cbn [bind] in E1.
    destruct (decide (has_form form d)) as [Hh|Hh]; unfold has_form in Hh.
    + rewrite bool_decide_true, Hn, Hu in E1 by congruence. cbn [bind] in E1.
      injection E1 as <-.
      destruct (filter (has_form form) records) as [|d' l]; simpl; [by rewrite Hu |].
      destruct (last (d' :: l)) eqn:El; [done|]. by apply last_None in El.
    + rewrite bool_decide_false in E1 by congruence. by injection E1 as <-.
Qed.

Lemma filterByFormType_records (form : string) (records : list (gmap string string)) :
  Forall DocumentRecord records →
  filterByFormType form (Dict <$> records)
  = Ok (filter (has_form form) (take 100 records)).
Proof.
  intros Hrec. unfold filterByFormType, scan_forms.
  rewrite (slice_0 100), <- fmap_take.
  destruct (scan_loop_records form (take 100 records) (Scan [] None None []))
    as (st & -> & H); [by apply Forall_take|].
  cbn [bind]. by rewrite H.
Qed.

Lemma filter_idem {A : Type} (P : A → Prop) `{∀ x, Decision (P x)} (l : list A) :
  filter P (filter P l) = filter P l.
Proof.
  induction l as [|x l IH]; [done|]. rewrite filter_cons.
  destruct (decide (P x)); [|done]. by rewrite filter_cons, decide_True, IH.
Qed.

Lemma record_of_DocumentRecord (fields : list string) :
  length fields = 5 → DocumentRecord (record_of fields).
Proof.
  intros Hlen. exists fields. split; [done|].
  apply length_5_inv in Hlen as (c & n & f & dt & u & ->). by repeat split.
Qed.

(** The comparison is exact: another spelling of the form type is another
    form type. *)
Example has_form_case_sensitive :
  has_form "10-K" (record_of filing_10K) ∧ ¬ has_form "10-k" (record_of filing_10K).
Proof. split; by vm_compute. Qed.

(** C8, as stated, fails: the loop runs over [master_data[0:100]] only, so a
    10-K record at position 100 is not selected. *)
Lemma filterByFormType_beyond_100 :
  cell14 (Row <$> replicate 100 filing_form4 ++ [filing_10K])
    = Ok (Dict <$> hundred_and_one) ∧
  filter (has_form "10-K") hundred_and_one = [record_of filing_10K] ∧
  filterByFormType "10-K" (Dict <$> hundred_and_one) = Ok [].
Proof. repeat split; by vm_compute. Qed.

(** C8, amended: among the first hundred records, the filter selects exactly
    those whose form type equals the given string, character for character,
    in their original order; filtering the selection again changes
    nothing. *)
Theorem filterByFormType_first_100 (form : string)
    (records : list (gmap string string)) :
  Forall DocumentRecord records →
  filterByFormType form (Dict <$> records)
    = Ok (filter (has_form form) (take 100 records)) ∧
  filterByFormType form (Dict <$> filter (has_form form) (take 100 records))
    = Ok (filter (has_form form) (take 100 records)).
Proof.
  intros Hrec. split; [by apply filterByFormType_records|].
  rewrite filterByFormType_records.
  - rewrite take_ge, filter_idem; [done|].
    etrans; [apply length_filter|]. rewrite length_take. lia.
  - apply Forall_forall. intros d [_ Hd]%list_elem_of_filter.
    revert d Hd. by apply Forall_forall, Forall_take.
Qed.

Lemma filterByFormType_first_100_witness :
  filterByFormType "10-K"
    (Dict <$> [record_of filing_form4; record_of filing_10K; record_of filing_form4])
  = Ok [record_of filing_10K].
Proof.
  refine (proj1 (filterByFormType_first_100 "10-K"
            [record_of filing_form4; record_of filing_10K; record_of filing_form4] _)).
  repeat constructor; by apply record_of_DocumentRecord.
Defined.

End filter_loop.

(** * Cell 12: the parser *)

Section parser.
Local Arguments String.append : simpl nomatch.
Import PyStr PyStrFacts.

(** An occurrence of [sub] survives the cuts when neither [sub] nor [sep]
    contains the first character of the other: it cannot overlap a
    separator, so it lies inside one chunk. *)
Lemma split_keeps (sep sub s : string) (c1 c2 : ascii) (sep' sub' : string) :
  sep = String c1 sep' → sub = String c2 sub' →
  contains (String c1 "") sub = false → contains (String c2 "") sep = false →
  contains sub s = true →
  Exists (λ chunk, contains sub chunk = true) (split sep s).
Proof.
  intros Hsep Hsub H1 H2.
  assert (sep ≠ "") as Hne by (by rewrite Hsep).
  revert s.
  apply (cut_ind sep (λ s, contains sub s = true → Exists _ (split sep s)) Hne).
  - intros s F Hs. rewrite split_eq, F by done. by constructor.
  - intros s i F IH (a & b & Hab)%contains_spec.
    rewrite split_eq, F by done.
    pose proof (find_cut _ _ _ F) as Hcut.
    set (x := slice_to i s) in *. set (r := slice_from (i + len sep) s) in *.
    clearbody x r. rewrite Hcut in Hab. clear Hcut F.
    destruct (decide (len a + len sub ≤ len x)) as [Hl|Hl].
    { apply Exists_cons_hd, contains_spec.
      rewrite <- (str_app_assoc a sub b) in Hab. symmetry in Hab.
      apply app_eq_app in Hab as (m & -> & _); [|by rewrite len_app].
      exists a, m. by rewrite str_app_assoc. }
    destruct (decide (len x + len sep ≤ len a)) as [Hr|Hr].
    { apply Exists_cons_tl, IH, contains_spec.
      rewrite <- (str_app_assoc x sep r) in Hab.
      apply app_eq_app in Hab as (m & _ & ->); [|by rewrite len_app].
      by exists m, b. }
    exfalso. destruct (decide (len a ≤ len x)) as [Hax|Hax].
    + symmetry in Hab. apply app_eq_app in Hab as (m & -> & Hab); [|done].
      rewrite len_app in Hl. symmetry in Hab.
      apply app_eq_app in Hab as (m' & Hm & Hab); [|lia].
      destruct m' as [|y m'].
      { rewrite Hm, len_app in Hl. simpl in Hl. lia. }
      rewrite Hsep in Hab. injection Hab as <- _.
      rewrite Hm in H1.
      enough (contains (String c1 "") (m +:+ String c1 m') = true) by congruence.
      apply contains_spec. by exists m, m'.
    + apply app_eq_app in Hab as (m & -> & Hab); [|lia].
      rewrite len_app in Hr. symmetry in Hab.
      apply app_eq_app in Hab as (m' & Hm & Hab); [|lia].
      destruct m' as [|y m'].
      { rewrite Hm, len_app in Hr. simpl in Hr. lia. }
      rewrite Hsub in Hab. injection Hab as <- _.
      rewrite Hm in H2.
      enough (contains (String c2 "") (m +:+ String c2 m') = true) by congruence.
      apply contains_spec. by exists m, m'.
Qed.

(** The sentinel is in the text exactly when it is in one of its chunks. *)
Lemma sentinel_in_data (text : string) :
  contains sentinel text = false ↔
  Forall (λ item, contains sentinel item = false) (data text).
Proof.
  split.
  - intros Htext. apply Forall_forall. intros item Hitem.
    apply split_factor in Hitem as (a & b & ->); [|done].
    destruct (contains sentinel item) eqn:E; [|done].
    by rewrite (contains_factor sentinel a item b E) in Htext.
  - intros Hdata. destruct (contains sentinel text) eqn:E; [|done].
    apply (split_keeps "  " sentinel text " " "f" " " "tp://ftp.sec.gov/edgar/")
      in E; [|done..].
    apply Exists_exists in E as (item & Hin & Hitem).
    rewrite Forall_forall in Hdata. by rewrite (Hdata item Hin) in Hitem.
Qed.

(** *** The header scan *)

Lemma header_scan_app (index : nat) (l1 l2 : list string) (start : option nat) :
  header_scan index (l1 ++ l2) start
  = header_scan (index + length l1) l2 (header_scan index l1 start).
Proof.
  revert index start. induction l1 as [|item l1 IH]; intros index start; simpl.
  - by rewrite Nat.add_0_r.
  - rewrite IH. f_equal. lia.
Qed.

(** Chunks without the sentinel leave [start_ind] as it is. *)
Lemma header_scan_absent (index : nat) (l : list string) (start : option nat) :
  Forall (λ item, contains sentinel item = false) l →
  header_scan index l start = start.
Proof.
  intros H. revert index. induction H as [|item l Hitem _ IH]; intros index; simpl.
  - done.
  - by rewrite Hitem, IH.
Qed.

(** The scan ends unbound exactly when it starts unbound and no chunk has
    the sentinel. *)
Lemma header_scan_None (index : nat) (l : list string) (start : option nat) :
  header_scan index l start = None ↔
  start = None ∧ Forall (λ item, contains sentinel item = false) l.
Proof.
  revert index start. induction l as [|item l IH]; intros index start; simpl.
  - split; [by intros -> | by intros [-> _]].
  - rewrite IH. destruct (contains sentinel item) eqn:E.
    + split; [by intros [? _] | intros [_ H]]. inversion H; congruence.
    + split; intros [? H]; (split; [done|]).
      * by constructor.
      * by inversion H.
Qed.

(** C1, as stated, fails: the scan has no [break], so [start_ind] is the
    index of the LAST chunk with the sentinel.  In [two_sentinels] the first
    such chunk is chunk 0 and extraction from chunk 1 on would give one
    row, but the cell starts behind chunk 2 and extracts nothing. *)
Lemma parse_two_sentinels :
  first_sentinel (data two_sentinels) = Some 0 ∧
  chunk_loop 0 (drop 1 (data two_sentinels)) [] = Ok [filing_form4] ∧
  start_ind (data two_sentinels) = Some 2 ∧
  parse two_sentinels = Ok [].
Proof. repeat split; by vm_compute. Qed.

(** C1, amended: the text is split on two spaces into chunks, and the LAST
    chunk containing the sentinel ends the header: that chunk and all chunks
    before it are dropped, and the rows are extracted from the chunks behind
    it. *)
Theorem parse_after_last_sentinel (text : string) (header : list string)
    (item : string) (rest : list string) :
  data text = header ++ item :: rest →
  contains sentinel item = true →
  Forall (λ later, contains sentinel later = false) rest →
  start_ind (data text) = Some (length header) ∧
  data_format (data text) = Ok rest ∧
  parse text = chunk_loop 0 rest [].
Proof.
  intros Hdata Hitem Hrest.
  assert (start_ind (data text) = Some (length header)) as E.
  { unfold start_ind. rewrite Hdata, header_scan_app. simpl.
    by rewrite Hitem, header_scan_absent. }
  assert (data_format (data text) = Ok rest) as E'.
  { unfold data_format. rewrite E, Hdata.
    replace (header ++ item :: rest) with ((header ++ [item]) ++ rest)
      by (by rewrite <- app_assoc).
    replace (length header + 1) with (length (header ++ [item]))
      by (rewrite length_app; simpl; lia).
    by rewrite drop_app_length. }
  split; [done|]. split; [done|]. unfold parse. by rewrite E'.
Qed.

Lemma parse_after_last_sentinel_witness :
  parse two_sentinels = chunk_loop 0 ["end"] [].
Proof.
  refine (proj2 (proj2 (parse_after_last_sentinel two_sentinels
    ["Anonymous FTP: ftp://ftp.sec.gov/edgar/";
     "h1|h2|h3|h4|h5|h6|h7|h8|1236397|BRADBURY DANIEL|4|20190401|edgar/data/1236397/0000886744-19-000047.txt"]
    "mirror of ftp://ftp.sec.gov/edgar/" ["end"] _ _ _))).
  - reflexivity.
  - reflexivity.
  - repeat constructor.
Defined.

(** *** The window [clean_item_data[(index - 4): index + 1]] *)

Section window.
Context {A : Type}.
Implicit Types l : list A.

Lemma length_window l (index : nat) :
  length (PyList.slice (Z.of_nat index - 4) (Z.of_nat index + 1) l) ≤ 5.
Proof.
  unfold PyList.slice, PyList.bound. rewrite length_take, length_drop.
  destruct (Z.ltb_spec (Z.of_nat index - 4) 0), (Z.ltb_spec (Z.of_nat index + 1) 0); lia.
Qed.

(** From position 4 on the window is the five tokens that end at
    [index]. *)
Lemma window_full l (index : nat) :
  4 ≤ index → index < length l →
  PyList.slice (Z.of_nat index - 4) (Z.of_nat index + 1) l = take 5 (drop (index - 4) l).
Proof.
  intros H4 Hlt. unfold PyList.slice, PyList.bound.
  destruct (Z.ltb_spec (Z.of_nat index - 4) 0); [lia|].
  destruct (Z.ltb_spec (Z.of_nat index + 1) 0); [lia|].
  replace (Z.to_nat (Z.of_nat index - 4) `min` length l) with (index - 4) by lia.
  replace (Z.to_nat (Z.of_nat index + 1) `min` length l - (index - 4)) with 5 by lia.
  done.
Qed.

(** Before position 4 the lower bound is negative and counts from the end:
    in a list of five or more the slice is empty, *)
Lemma window_wrapped_empty l (index : nat) :
  index < 4 → 5 ≤ length l →
  PyList.slice (Z.of_nat index - 4) (Z.of_nat index + 1) l = [].
Proof.
  intros H4 Hlen. unfold PyList.slice, PyList.bound.
  destruct (Z.ltb_spec (Z.of_nat index - 4) 0); [|lia].
  destruct (Z.ltb_spec (Z.of_nat index + 1) 0); [lia|].
  match goal with |- take ?n _ = _ => replace n with 0 by lia end.
  done.
Qed.

(** and in a shorter list it is not empty, yet shorter than five. *)
Lemma window_wrapped_short l (index : nat) :
  index < length l → length l < 5 →
  let mini_list := PyList.slice (Z.of_nat index - 4) (Z.of_nat index + 1) l in
  0 < length mini_list ∧ length mini_list < 5.
Proof.
  intros Hlt Hlen. unfold PyList.slice, PyList.bound. simpl.
  rewrite length_take, length_drop.
  destruct (Z.ltb_spec (Z.of_nat index - 4) 0); [|lia].
  destruct (Z.ltb_spec (Z.of_nat index + 1) 0); lia.
Qed.

End window.

(** *** One turn of the row loop *)

Lemma row_step_plain (toks : list string) (index : nat) (row : string)
    (master_data : list (list string)) :
  contains ".txt" row = false → row_step toks index row master_data = Ok master_data.
Proof. intros H. unfold row_step. by rewrite H. Qed.

(** A [.txt] token at position 4 or later appends the four tokens in front
    of it and the token itself, prefixed with the archive base. *)
Lemma row_step_window (toks : list string) (index : nat) (row : string)
    (master_data : list (list string)) :
  contains ".txt" row = true → 4 ≤ index → toks !! index = Some row →
  row_step toks index row master_data
  = Ok (master_data ++ [take 4 (drop (index - 4) toks) ++ [archives +:+ row]]).
Proof.
  intros Htxt H4 Hrow. pose proof (lookup_lt_Some _ _ _ Hrow) as Hlt.
  unfold row_step. rewrite Htxt, window_full by done.
  assert (take 5 (drop (index - 4) toks) = take 4 (drop (index - 4) toks) ++ [row]) as E.
  { rewrite (take_S_r _ 4 row); [done|].
    rewrite lookup_drop. by replace (index - 4 + 4) with index by lia. }
  rewrite E.
  assert (length (take 4 (drop (index - 4) toks)) = 4) as El.
  { rewrite length_take, length_drop. lia. }
  rewrite bool_decide_true by (rewrite length_app; simpl; lia).
  rewrite lookup_app_r, El by lia. simpl.
  do 2 f_equal.
  replace 4 with (length (take 4 (drop (index - 4) toks)) + 0) at 1 by lia.
  by rewrite insert_app_r.
Qed.

(** A [.txt] token before position 4 of a chunk with five or more tokens is
    skipped. *)
Lemma row_step_skipped (toks : list string) (index : nat) (row : string)
    (master_data : list (list string)) :
  index < 4 → 5 ≤ length toks →
  row_step toks index row master_data = Ok master_data.
Proof.
  intros H4 Hlen. unfold row_step. rewrite window_wrapped_empty by done.
  by destruct (contains ".txt" row).
Qed.

(** A [.txt] token in a chunk with fewer than five tokens raises
    IndexError: the slice is not empty but has no position 4. *)
Lemma row_step_raises (toks : list string) (index : nat) (row : string)
    (master_data : list (list string)) :
  contains ".txt" row = true → index < length toks → length toks < 5 →
  row_step toks index row master_data = Raise IndexError.
Proof.
  intros Htxt Hlt Hlen. unfold row_step. rewrite Htxt.
  destruct (window_wrapped_short toks index Hlt Hlen) as [H0 H5].
  rewrite bool_decide_true by lia.
  by rewrite lookup_ge_None_2 by lia.
Qed.

(** What a turn can do to [master_data]: nothing, or append one row of
    five fields. *)
Lemma row_step_Ok (toks : list string) (index : nat) (row : string)
    (master_data master_data' : list (list string)) :
  row_step toks index row master_data = Ok master_data' →
  master_data' = master_data ∨
  ∃ mini_list, master_data' = master_data ++ [mini_list] ∧ length mini_list = 5.
Proof.
  unfold row_step. destruct (contains ".txt" row); [|intros [= <-]; by left].
  case_bool_decide; [|intros [= <-]; by left].
  destruct (_ !! 4) as [file|] eqn:E; [|done]. intros [= <-]. right.
  eexists. split; [done|]. rewrite length_insert.
  apply lookup_lt_Some in E.
  pose proof (length_window toks index). lia.
Qed.

(** The only exception of a turn is IndexError. *)
Lemma row_step_Raise (toks : list string) (index : nat) (row : string)
    (master_data : list (list string)) (e : exn) :
  row_step toks index row master_data = Raise e → e = IndexError.
Proof.
  unfold row_step. destruct (contains ".txt" row); [|done].
  case_bool_decide; [|done]. destruct (_ !! 4); [done|]. by intros [= <-].
Qed.

(** *** The loops *)

Lemma row_loop_plain (toks rows : list string) (index : nat)
    (master_data : list (list string)) :
  Forall (λ row, contains ".txt" row = false) rows →
  row_loop toks index rows master_data = Ok master_data.
Proof.
  intros H. revert index. induction H as [|row rows Hrow _ IH]; intros index; simpl.
  - done.
  - rewrite row_step_plain by done. simpl. apply IH.
Qed.

(** On a chunk of five or more tokens the row loop runs to its end. *)
Lemma row_loop_total (toks : list string) (index : nat) (rows : list string)
    (master_data : list (list string)) :
  5 ≤ length toks → drop index toks = rows →
  ∃ master_data', row_loop toks index rows master_data = Ok master_data'.
Proof.
  intros Hlen. revert index master_data.
  induction rows as [|row rows IH]; intros index master_data Hdrop; simpl.
  - by eexists.
  - assert (toks !! index = Some row) as Hrow.
    { by rewrite <- (Nat.add_0_r index), <- lookup_drop, Hdrop. }
    assert (∃ md, row_step toks index row master_data = Ok md) as [md ->].
    { destruct (contains ".txt" row) eqn:Htxt.
      - destruct (decide (4 ≤ index)).
        + rewrite row_step_window by done. by eexists.
        + rewrite row_step_skipped by lia. by eexists.
      - rewrite row_step_plain by done. by eexists. }
    simpl. apply IH.
    rewrite (drop_S _ _ _ Hrow) in Hdrop. by injection Hdrop.
Qed.

Lemma row_loop_Ok (toks rows : list string) (index : nat)
    (master_data master_data' : list (list string)) :
  row_loop toks index rows master_data = Ok master_data' →
  Forall (λ mini_list, length mini_list = 5) master_data →
  Forall (λ mini_list, length mini_list = 5) master_data'.
Proof.
  revert index master_data. induction rows as [|row rows IH];
    intros index master_data; simpl.
  - by intros [= <-].
  - destruct (row_step toks index row master_data) as [md|e] eqn:E; [|done].
    simpl. intros Hloop Hmd. apply (IH _ _ Hloop).
    apply row_step_Ok in E as [->|(mini_list & -> & Hlen)]; [done|].
    apply Forall_app. split; [done|]. by constructor.
Qed.

Lemma row_loop_Raise (toks rows : list string) (index : nat)
    (master_data : list (list string)) (e : exn) :
  row_loop toks index rows master_data = Raise e → e = IndexError.
Proof.
  revert index master_data. induction rows as [|row rows IH];
    intros index master_data; simpl; [done|].
  destruct (row_step toks index row master_data) as [md|e'] eqn:E; simpl.
  - apply IH.
  - intros [= <-]. by apply row_step_Raise in E.
Qed.

Lemma chunk_loop_Ok (index : nat) (chunks : list string)
    (master_data master_data' : list (list string)) :
  chunk_loop index chunks master_data = Ok master_data' →
  Forall (λ mini_list, length mini_list = 5) master_data →
  Forall (λ mini_list, length mini_list = 5) master_data'.
Proof.
  revert index master_data. induction chunks as [|item chunks IH];
    intros index master_data; simpl.
  - by intros [= <-].
  - destruct (row_loop _ 0 _ master_data) as [md|e] eqn:E; [|done].
    simpl. intros Hloop Hmd. apply (IH _ _ Hloop). by apply (row_loop_Ok _ _ _ _ _ E).
Qed.

Lemma chunk_loop_Raise (index : nat) (chunks : list string)
    (master_data : list (list string)) (e : exn) :
  chunk_loop index chunks master_data = Raise e → e = IndexError.
Proof.
  revert index master_data. induction chunks as [|item chunks IH];
    intros index master_data; simpl; [done|].
  destruct (row_loop _ 0 _ master_data) as [md|e'] eqn:E; simpl.
  - apply IH.
  - intros [= <-]. by apply row_loop_Raise in E.
Qed.

(** The chunk loop from index [k] on, with the chunks numbered from [k]. *)
Lemma chunk_loop_plain (k : nat) (chunks : list string)
    (master_data : list (list string)) :
  (∀ index item, chunks !! index = Some item →
     Forall (λ row, contains ".txt" row = false) (clean_item_data (k + index) item)) →
  chunk_loop k chunks master_data = Ok master_data.
Proof.
  revert k. induction chunks as [|item chunks IH]; intros k H; simpl; [done|].
  rewrite row_loop_plain.
  - simpl. apply IH. intros index item' Hitem.
    replace (S k + index) with (k + S index) by lia. by apply H.
  - specialize (H 0 item eq_refl). by rewrite Nat.add_0_r in H.
Qed.

Lemma chunk_loop_total (k : nat) (chunks : list string)
    (master_data : list (list string)) :
  (∀ index item, chunks !! index = Some item →
     5 ≤ length (clean_item_data (k + index) item) ∨
     Forall (λ row, contains ".txt" row = false) (clean_item_data (k + index) item)) →
  ∃ master_data', chunk_loop k chunks master_data = Ok master_data'.
Proof.
  revert k master_data. induction chunks as [|item chunks IH];
    intros k master_data H; simpl; [by eexists|].
  assert (∃ md, row_loop (clean_item_data k item) 0 (clean_item_data k item) master_data
                = Ok md) as [md ->].
  { specialize (H 0 item eq_refl). rewrite Nat.add_0_r in H. destruct H as [H|H].
    - by apply row_loop_total.
    - rewrite row_loop_plain by done. by eexists. }
  simpl. apply IH. intros index item' Hitem.
  replace (S k + index) with (k + S index) by lia. by apply H.
Qed.

(** *** The loops as a list of windows *)

(** One turn, when it does not raise, appends the window of its token. *)
Lemma row_step_inv (toks : list string) (index : nat) (row : string)
    (master_data master_data' : list (list string)) :
  toks !! index = Some row →
  row_step toks index row master_data = Ok master_data' →
  master_data' = master_data ++ window_at toks index row.
Proof.
  intros Hrow. pose proof (lookup_lt_Some _ _ _ Hrow) as Hlt. unfold window_at.
  destruct (contains ".txt" row) eqn:Htxt; cbn [andb].
  - destruct (Nat.leb_spec 4 index) as [H4|H4].
    + rewrite row_step_window by done. by intros [= <-].
    + destruct (decide (5 ≤ length toks)).
      * rewrite row_step_skipped by done. intros [= <-]. by rewrite app_nil_r.
      * by rewrite row_step_raises by (done || lia).
  - rewrite row_step_plain by done. intros [= <-]. by rewrite app_nil_r.
Qed.

Lemma row_loop_inv (toks : list string) (index : nat) (rows : list string)
    (master_data master_data' : list (list string)) :
  drop index toks = rows →
  row_loop toks index rows master_data = Ok master_data' →
  master_data' = master_data ++ mjoin (imap (λ j, window_at toks (index + j)) rows).
Proof.
  revert index master_data. induction rows as [|row rows IH];
    intros index master_data Hdrop; simpl.
  - intros [= <-]. by rewrite app_nil_r.
  - assert (toks !! index = Some row) as Hrow.
    { by rewrite <- (Nat.add_0_r index), <- lookup_drop, Hdrop. }
    destruct (row_step toks index row master_data) as [md|e] eqn:E; [|done]. simpl.
    apply (row_step_inv _ _ _ _ _ Hrow) in E as ->.
    intros Hloop. apply IH in Hloop as ->.
    + rewrite Nat.add_0_r, <- app_assoc. do 2 f_equal.
      f_equal. apply imap_ext. intros j x _. simpl. f_equal. lia.
    + rewrite (drop_S _ _ _ Hrow) in Hdrop. by injection Hdrop.
Qed.

Lemma chunk_loop_inv (k : nat) (chunks : list string)
    (master_data master_data' : list (list string)) :
  chunk_loop k chunks master_data = Ok master_data' →
  master_data' =
    master_data ++ mjoin (imap (λ i item, windows (clean_item_data (k + i) item)) chunks).
Proof.
  revert k master_data. induction chunks as [|item chunks IH];
    intros k master_data; simpl.
  - intros [= <-]. by rewrite app_nil_r.
  - destruct (row_loop _ 0 _ master_data) as [md|e] eqn:E; [|done]. simpl.
    apply row_loop_inv in E as ->; [|done].
    intros Hloop. apply IH in Hloop as ->.
    rewrite Nat.add_0_r, <- app_assoc. do 2 f_equal.
    f_equal. apply imap_ext. intros j x _. simpl. do 2 f_equal. lia.
Qed.

(** Every row of a successful parse has five fields. *)
Lemma parse_Ok (text : string) (master_data : list (list string)) :
  parse text = Ok master_data →
  Forall (λ mini_list, length mini_list = 5) master_data.
Proof.
  unfold parse. destruct (data_format (data text)); [|done]. simpl.
  intros H. by apply (chunk_loop_Ok _ _ _ _ H).
Qed.

(** C2: the guard [len(mini_list) != 0] does not catch a short window.
    In [short_window] the last chunk has four tokens; the slice
    [clean_item_data[-1:4]] is its [.txt] token alone, and [mini_list[4]]
    raises IndexError, so the cell fails instead of skipping the
    candidate. *)
Theorem parse_short_window_raises :
  data_format (data short_window)
    = Ok ["CIK|Company Name|Form Type|Date Filed|File Name" +:+ newline +:+ "1236397|BRADBURY";
          "DANIEL|4|20190401|edgar/data/1236397/0000886744-19-000047.txt"] ∧
  clean_item_data 1 "DANIEL|4|20190401|edgar/data/1236397/0000886744-19-000047.txt"
    = ["DANIEL"; "4"; "20190401"; "edgar/data/1236397/0000886744-19-000047.txt"] ∧
  parse short_window = Raise IndexError.
Proof. repeat split; by vm_compute. Qed.

(** C3, as stated, fails: the cell has no check on the number of rows.  In
    [header_only] the sentinel is found and the data section is not empty,
    no row is extracted, and the cell ends normally with an empty
    [master_data]. *)
Lemma parse_zero_records_succeeds :
  contains sentinel header_only = true ∧
  data_format (data header_only)
    = Ok ["CIK|Company Name|Form Type|Date Filed|File Name"] ∧
  parse header_only = Ok [].
Proof. repeat split; by vm_compute. Qed.

(** C3, amended: the cell fails on the unbound [start_ind] (a NameError;
    the notebook has no MalformedIndexError), with no partial result,
    exactly when the sentinel is nowhere in the text.  When the sentinel is
    found and no token of the data section contains [.txt], it succeeds
    with the empty sequence; and whenever every tokenised chunk of the data
    section has five tokens or more, or no [.txt] token, it succeeds with
    the full ordered sequence of records: chunk by chunk and, inside a
    chunk, from left to right, one row of five fields for each [.txt] token
    at position 4 or later of its tokenised chunk, made of the four tokens
    in front of it and the token itself behind the archive base. *)
Theorem parse_failure (text : string) :
  (parse text = Raise (NameError "start_ind") ↔ contains sentinel text = false) ∧
  (∀ data_section, data_format (data text) = Ok data_section →
     (no_records data_section → parse text = Ok []) ∧
     (full_windows data_section →
        parse text
        = Ok (mjoin (imap (λ index item, windows (clean_item_data index item))
                          data_section)) ∧
        Forall (λ mini_list, length mini_list = 5)
          (mjoin (imap (λ index item, windows (clean_item_data index item))
                       data_section)))).
Proof.
  split.
  - rewrite sentinel_in_data. unfold parse, data_format, start_ind.
    destruct (header_scan 0 (data text) None) as [i|] eqn:E.
    + simpl. split.
      * by intros ?%chunk_loop_Raise.
      * intros H. by rewrite header_scan_absent in E.
    + simpl. by apply header_scan_None in E as [_ E].
  - intros data_section E. unfold parse. rewrite E. cbn [bind]. split.
    + intros H. apply chunk_loop_plain. intros index item Hitem. by apply H.
    + intros H.
      destruct (chunk_loop_total 0 data_section []) as [master_data Hmd].
      { intros index item Hitem. by apply H. }
      pose proof (chunk_loop_inv _ _ _ _ Hmd) as Hrows. rewrite app_nil_l in Hrows.
      cbn [Nat.add] in Hrows. rewrite <- Hrows. split; [done|].
      by apply (chunk_loop_Ok _ _ _ _ Hmd).
Qed.

Lemma parse_failure_witness :
  parse "Description: Daily Index of EDGAR Dissemination Feed by Master Index"
    = Raise (NameError "start_ind") ∧
  parse header_only = Ok [] ∧
  parse annual_report = Ok [filing_10K] ∧
  Forall (λ mini_list, length mini_list = 5) [filing_10K].
Proof.
  split; [|split].
  - apply (proj2 (proj1 (parse_failure _))). reflexivity.
  - refine (proj1 (proj2 (parse_failure header_only) _ _) _).
    + reflexivity.
    + intros [|index] item [= <-]. vm_compute. constructor.
  - refine (proj2 (proj2 (parse_failure annual_report)
              ["h1|h2|h3|h4|h5|h6|h7|h8|"
               +:+ "1263364|Joway Health Industries Group Inc|10-K|20190401|"
               +:+ "edgar/data/1263364/0001213900-19-005388.txt"] _) _).
    + reflexivity.
    + intros [|index] item [= <-]. left. vm_compute. lia.
Defined.

(** C4, as stated, fails: the first chunk behind the sentinel loses its
    first eight tokens, and the row has five, so a row that follows the
    sentinel directly, behind a line break or behind the two-space separator
    is dropped whole. *)
Lemma parse_scenario_row_dropped :
  parse (sentinel +:+ scenario_row) = Ok [] ∧
  parse (sentinel +:+ newline +:+ scenario_row) = Ok [] ∧
  parse (sentinel +:+ "  " +:+ scenario_row) = Ok [].
Proof. repeat split; by vm_compute. Qed.

(** C4, amended: for the sentinel, the two-space separator, eight residual
    tokens and then the row
    [1236397|BRADBURY DANIEL|4|20190401|edgar/data/1236397/0000886744-19-000047.txt],
    the cell returns exactly one row: CIK ["1236397"], form type ["4"],
    date ["20190401"], and the document path prefixed with the archive
    base. *)
Theorem parse_scenario :
  parse scenario
  = Ok [["1236397"; "BRADBURY DANIEL"; "4"; "20190401";
         archives +:+ "edgar/data/1236397/0000886744-19-000047.txt"]].
Proof. by vm_compute. Qed.

End parser.

(** * From the text to the records and the derived URLs *)

Section pipeline.

(** Cell 16 does not assign to [master_data]. *)
Lemma cell16_master_data (form : string) (g g' : globals) :
  cell16 form g = Ok g' → g_master_data g' = g_master_data g.
Proof.
  unfold cell16. destruct (scan_forms _ _ _) as [st|e]; [|done]. simpl.
  destruct (read "docu_url" (docu_url st)) as [url|e]; [|done]. simpl.
  destruct (file_url_archive url) as [detail|e]; [|done]. simpl.
  by intros [= <-].
Qed.

(** With a hit among the first hundred records the cell runs to its end,
    and the three URLs are those of the last hit. *)
Lemma cell16_last_hit (form : string) (g : globals)
    (records : list (gmap string string)) (d : gmap string string) :
  g_master_data g = Dict <$> records →
  Forall DocumentRecord records →
  last (filter (has_form form) (take 100 records)) = Some d →
  ∃ g' url detail,
    cell16 form g = Ok g' ∧ d !! "file_url" = Some url ∧
    file_url_archive url = Ok detail ∧
    g_docu_url g' = Some url ∧ g_file_url_archive g' = Some detail ∧
    g_archive_url g' = Some (archive_url url) ∧
    g_company_url g' = Some (company_url url).
Proof.
  intros Hg Hrec Hlast. unfold cell16, scan_forms.
  rewrite Hg, (slice_0 100), <- fmap_take.
  assert (Forall DocumentRecord (take 100 records)) as Hrec' by (by apply Forall_take).
  destruct (scan_loop_records form (take 100 records)
              (Scan [] (g_comp_name g) (g_docu_url g) (g_stdout g)) Hrec')
    as (st & E & _).
  rewrite E. cbn [bind].
  rewrite (scan_loop_docu_url _ _ _ _ Hrec' E), Hlast.
  assert (DocumentRecord d) as Hd.
  { apply last_Some_elem_of in Hlast. apply list_elem_of_filter in Hlast as [_ Hin].
    revert d Hin. by apply Forall_forall. }
  apply DocumentRecord_keys in Hd as (_ & _ & url & _ & _ & ->).
  destruct (file_url_archive_total url) as [detail Hdetail].
  exists (Globals (Dict <$> records) (comp_name st) (Some url) (Some detail)
            (Some (archive_url url)) (Some (company_url url))
            (((stdout st
               ++ [rule; "The Filing Detail can be found here: " +:+ detail])
              ++ [rule; "The Archive Folder can be found here: " +:+ archive_url url])
             ++ [rule; "The Company Archive Folder can be found here: "
                       +:+ (company_url url).1.1])),
    url, detail.
  cbn [read bind]. rewrite Hdetail. cbn [bind]. done.
Qed.

(** The run of the notebook on a text with one 10-K row: the lines it
    prints are those of its recorded output. *)
Example notebook_run :
  (master_data ←? parse annual_report;
   master_data ←? cell14 (Row <$> master_data);
   g ←? cell16 "10-K" (fresh master_data);
   Ok (g_stdout g))
  = Ok [rule; "Joway Health Industries Group Inc";
        "https://www.sec.gov/Archives/edgar/data/1263364/0001213900-19-005388.txt";
        rule;
        "The Filing Detail can be found here: https://www.sec.gov/Archives/edgar/data/1263364/0001213900-19-005388-index.htm";
        rule;
        "The Archive Folder can be found here: https://www.sec.gov/Archives/edgar/data/1263364/000121390019005388";
        rule;
        "The Company Archive Folder can be found here: https://www.sec.gov/Archives/edgar/data/1263364"].
Proof. by vm_compute. Qed.

(** C10: for every sequence of rows the parser returns, cell 14 succeeds
    and leaves as many dictionaries as there were rows, in the same order,
    each storing the five fields of its row unchanged under the keys
    [cik_number], [company_name], [form_id], [date] and [file_url]; and a
    run of cell 16 on these dictionaries, which derives the three URLs from
    a [file_url], leaves [master_data], and with it every stored field, as
    it was. *)
Theorem filings_to_records (text : string) (rows : list (list string)) :
  parse text = Ok rows →
  ∃ records,
    cell14 (Row <$> rows) = Ok (Dict <$> records) ∧
    length records = length rows ∧
    Forall2 stores records rows ∧
    ∀ form g g',
      g_master_data g = Dict <$> records → cell16 form g = Ok g' →
      g_master_data g' = Dict <$> records.
Proof.
  intros Hrows%parse_Ok.
  destruct (cell14_rows rows Hrows) as (records & E & H).
  exists records. split; [done|]. split; [by apply Forall2_length in H|].
  split; [done|]. intros form g g' Hg Hrun.
  by rewrite (cell16_master_data _ _ _ Hrun).
Qed.

Lemma filings_to_records_witness :
  ∃ records,
    cell14 (Row <$> [filing_10K]) = Ok (Dict <$> records) ∧
    length records = 1 ∧
    Forall2 stores records [filing_10K] ∧
    ∀ form g g',
      g_master_data g = Dict <$> records → cell16 form g = Ok g' →
      g_master_data g' = Dict <$> records.
Proof. apply (filings_to_records annual_report [filing_10K]). reflexivity. Defined.

End pipeline.

(** * More about the parser *)

Section parser_more.
Local Arguments String.append : simpl nomatch.
Import PyStr PyStrFacts.

(** *** Chunks and tokens *)

(** X1: chunking loses nothing: the chunks of [data], joined by two
    spaces, are the text; there is at least one chunk, and no chunk contains
    two consecutive spaces. *)
Theorem data_round_trip (text : string) :
  join "  " (data text) = text ∧
  data text ≠ [] ∧
  Forall (λ item, contains "  " item = false) (data text).
Proof.
  unfold data. split; [by apply join_split|].
  split; [by apply split_nonempty | by apply split_free].
Qed.

Lemma tokens_clean (item : string) : Forall clean (tokens item).
Proof.
  unfold tokens. apply Forall_forall. intros tok Htok. split.
  - pose proof (split_free "|" (replace newline "|" item) ltac:(done)) as H.
    rewrite Forall_forall in H. by apply H.
  - apply split_factor in Htok as (a & b & Hab); [|done].
    apply (contains_factor_false newline a tok b). rewrite <- Hab.
    by apply replace_free.
Qed.

(** X2: the tokens of a chunk, joined by bars, are the chunk with its line
    breaks turned into bars, and no token contains a bar or a line
    break. *)
Theorem tokens_round_trip (item : string) :
  join "|" (tokens item) = replace newline "|" item ∧ Forall clean (tokens item).
Proof. split; [by apply join_split | apply tokens_clean]. Qed.

Lemma clean_item_data_clean (index : nat) (item : string) :
  Forall clean (clean_item_data index item).
Proof.
  unfold clean_item_data. destruct (index =? 0); [apply Forall_drop|]; apply tokens_clean.
Qed.

(** *** The header scan, read backwards *)

Lemma header_scan_Some (index : nat) (l : list string) (start : option nat) (i : nat) :
  header_scan index l start = Some i →
  (start = Some i ∧ Forall (λ item, contains sentinel item = false) l) ∨
  ∃ header item rest,
    l = header ++ item :: rest ∧ i = index + length header ∧
    contains sentinel item = true ∧
    Forall (λ later, contains sentinel later = false) rest.
Proof.
  revert index start. induction l as [|x l IH]; intros index start; simpl.
  - intros ->. by left.
  - intros H. apply IH in H as [[H1 H2]|(header & item & rest & -> & -> & H3 & H4)].
    + destruct (contains sentinel x) eqn:E.
      * injection H1 as <-. right. exists [], x, l. by rewrite Nat.add_0_r.
      * left. split; [done|]. by constructor.
    + right. exists (x :: header), item, rest. repeat split; try done. simpl. lia.
Qed.

(** X3: when the scan binds [start_ind], it is the index of a chunk that
    contains the sentinel, no later chunk contains it, and [data_format] is
    exactly what lies behind that chunk, so it is shorter than [data]. *)
Theorem start_ind_Some (data : list string) (i : nat) :
  start_ind data = Some i →
  ∃ header item rest,
    data = header ++ item :: rest ∧ length header = i ∧
    contains sentinel item = true ∧
    Forall (λ later, contains sentinel later = false) rest ∧
    data_format data = Ok rest ∧
    length rest = length data - i - 1.
Proof.
  intros H. pose proof H as H'.
  apply header_scan_Some in H as [[? _]|(header & item & rest & -> & -> & H3 & H4)];
    [done|].
  exists header, item, rest. repeat split; try done.
  - unfold data_format. rewrite H'. simpl.
    replace (header ++ item :: rest) with ((header ++ [item]) ++ rest)
      by (by rewrite <- app_assoc).
    replace (length header + 1) with (length (header ++ [item]))
      by (rewrite length_app; simpl; lia).
    by rewrite drop_app_length.
  - rewrite length_app. simpl. lia.
Qed.

Lemma start_ind_Some_witness :
  ∃ header item rest,
    data two_sentinels = header ++ item :: rest ∧ length header = 2 ∧
    contains sentinel item = true ∧
    Forall (λ later, contains sentinel later = false) rest ∧
    data_format (data two_sentinels) = Ok rest ∧
    length rest = length (data two_sentinels) - 2 - 1.
Proof. apply (start_ind_Some (data two_sentinels) 2). reflexivity. Defined.

(** *** The result as a list of windows *)

Lemma parse_inv (text : string) (master_data : list (list string)) :
  parse text = Ok master_data →
  ∃ data_section,
    data_format (data text) = Ok data_section ∧
    master_data
    = mjoin (imap (λ index item, windows (clean_item_data index item)) data_section).
Proof.
  unfold parse. destruct (data_format (data text)) as [ds|e]; [|done]. simpl.
  intros H. exists ds. split; [done|]. by apply chunk_loop_inv in H.
Qed.

(** X4: whenever the cell succeeds, [master_data] is the windows of the
    chunks of the data section, chunk by chunk and, inside a chunk, from
    left to right: one row for each [.txt] token at position 4 or later of
    its tokenised chunk, none for any other token. *)
Theorem parse_windows (text : string) (master_data : list (list string)) :
  parse text = Ok master_data →
  ∃ data_section,
    data_format (data text) = Ok data_section ∧
    master_data
    = mjoin (imap (λ index item, windows (clean_item_data index item)) data_section).
Proof.
  unfold parse. destruct (data_format (data text)) as [data_section|e]; [|done].
  cbn [bind]. intros Hloop. exists data_section. split; [done|].
  apply chunk_loop_inv in Hloop. by rewrite app_nil_l in Hloop.
Qed.

Lemma parse_windows_witness :
  ∃ data_section,
    data_format (data annual_report) = Ok data_section ∧
    [filing_10K]
    = mjoin (imap (λ index item, windows (clean_item_data index item)) data_section).
Proof. apply (parse_windows annual_report). reflexivity. Defined.

(** *** The shape of a row *)

Lemma windows_elem (toks : list string) (mini_list : list string) :
  mini_list ∈ windows toks →
  ∃ index row,
    toks !! index = Some row ∧ 4 ≤ index ∧ contains ".txt" row = true ∧
    mini_list = take 4 (drop (index - 4) toks) ++ [archives +:+ row].
Proof.
  unfold windows. intros (l & Hin & Hl)%list_elem_of_join.
  apply elem_of_lookup_imap in Hl as (index & row & -> & Hrow).
  exists index, row. unfold window_at in Hin.
  destruct (contains ".txt" row); [|by apply elem_of_nil in Hin].
  destruct (Nat.leb_spec 4 index); [|by apply elem_of_nil in Hin].
  by apply list_elem_of_singleton in Hin.
Qed.

(** Four clean tokens and the reference behind the archive base. *)
Lemma window_fields (toks : list string) (index : nat) (row : string) :
  Forall clean toks → toks !! index = Some row → 4 ≤ index →
  ∃ cik name form date,
    take 4 (drop (index - 4) toks) ++ [archives +:+ row]
      = [cik; name; form; date; archives +:+ row] ∧
    clean cik ∧ clean name ∧ clean form ∧ clean date ∧ clean row.
Proof.
  intros Hclean Hrow H4. pose proof (lookup_lt_Some _ _ _ Hrow) as Hlt.
  assert (Forall clean (take 4 (drop (index - 4) toks))) as Hfour
    by by apply Forall_take, Forall_drop.
  assert (length (take 4 (drop (index - 4) toks)) = 4) as Hlen
    by (rewrite length_take, length_drop; lia).
  destruct (take 4 (drop (index - 4) toks)) as [|c [|n [|f [|d [|? ?]]]]]; try done.
  exists c, n, f, d. split; [done|].
  apply Forall_cons in Hfour as [Hc Hfour]. apply Forall_cons in Hfour as [Hn Hfour].
  apply Forall_cons in Hfour as [Hf Hfour]. apply Forall_cons in Hfour as [Hd _].
  do 4 (split; [done|]). rewrite Forall_forall in Hclean.
  apply Hclean. by eapply list_elem_of_lookup_2.
Qed.

(** X5: every row of a successful parse is a CIK, a company name, a form
    type, a date and a document reference, in this order.  None of the
    first four contains a bar or a line break, and the reference is the
    archive base followed by a token that contains [.txt] and no bar or
    line break. *)
Theorem parse_rows (text : string) (master_data : list (list string)) :
  parse text = Ok master_data →
  Forall (λ mini_list,
    ∃ cik name form date file,
      mini_list = [cik; name; form; date; archives +:+ file] ∧
      clean cik ∧ clean name ∧ clean form ∧ clean date ∧ clean file ∧
      contains ".txt" file = true) master_data.
Proof.
  intros (ds & _ & ->)%parse_inv. apply Forall_forall.
  intros mini_list (l & Hin & Hl)%list_elem_of_join.
  apply elem_of_lookup_imap in Hl as (i & item & -> & _).
  apply windows_elem in Hin as (index & row & Hrow & H4 & Htxt & ->).
  destruct (window_fields _ _ _ (clean_item_data_clean i item) Hrow H4)
    as (c & n & f & d & -> & ? & ? & ? & ? & ?).
  by exists c, n, f, d, row.
Qed.

Lemma parse_rows_witness :
  Forall (λ mini_list,
    ∃ cik name form date file,
      mini_list = [cik; name; form; date; archives +:+ file] ∧
      clean cik ∧ clean name ∧ clean form ∧ clean date ∧ clean file ∧
      contains ".txt" file = true) [filing_10K].
Proof. apply (parse_rows annual_report). reflexivity. Defined.

(** *** The exceptions *)

(** A chunk of fewer than five tokens with a [.txt] token stops the row
    loop. *)
Lemma row_loop_short (toks : list string) (index : nat) (rows : list string)
    (master_data : list (list string)) :
  length toks < 5 → drop index toks = rows →
  Exists (λ row, contains ".txt" row = true) rows →
  row_loop toks index rows master_data = Raise IndexError.
Proof.
  intros Hlen. revert index. induction rows as [|row rows IH]; intros index Hdrop Hex.
  - by apply Exists_nil in Hex.
  - assert (toks !! index = Some row) as Hrow.
    { by rewrite <- (Nat.add_0_r index), <- lookup_drop, Hdrop. }
    pose proof (lookup_lt_Some _ _ _ Hrow) as Hlt. simpl.
    destruct (contains ".txt" row) eqn:Htxt.
    + by rewrite row_step_raises.
    + rewrite row_step_plain by done. simpl. apply IH.
      * rewrite (drop_S _ _ _ Hrow) in Hdrop. by injection Hdrop.
      * apply Exists_cons in Hex as [Hex|Hex]; [congruence | done].
Qed.

(** The row loop stops only on such a chunk. *)
Lemma row_loop_Raise_inv (toks : list string) (master_data : list (list string))
    (e : exn) :
  row_loop toks 0 toks master_data = Raise e →
  length toks < 5 ∧ Exists (λ row, contains ".txt" row = true) toks.
Proof.
  intros H. split.
  - destruct (decide (5 ≤ length toks)) as [Hlen|]; [|lia].
    destruct (row_loop_total toks 0 toks master_data Hlen) as [md Hmd]; [done|].
    congruence.
  - destruct (decide (Forall (λ row, contains ".txt" row = false) toks)) as [Hall|Hall].
    + by rewrite row_loop_plain in H.
    + apply not_Forall_Exists in Hall; [|apply _].
      eapply Exists_impl; [done|]. intros row Hrow. simpl in Hrow.
      by destruct (contains ".txt" row).
Qed.

Lemma chunk_loop_IndexError (k : nat) (chunks : list string)
    (master_data : list (list string)) :
  chunk_loop k chunks master_data = Raise IndexError ↔
  ∃ i item,
    chunks !! i = Some item ∧ length (clean_item_data (k + i) item) < 5 ∧
    Exists (λ row, contains ".txt" row = true) (clean_item_data (k + i) item).
Proof.
  revert k master_data. induction chunks as [|item chunks IH]; intros k master_data.
  - simpl. split; [done | by intros (i & item & ? & _)].
  - simpl. destruct (row_loop _ 0 _ master_data) as [md|e] eqn:E; simpl.
    + rewrite IH. split.
      * intros (i & item' & Hi & Hlen & Hex). exists (S i), item'.
        by replace (k + S i) with (S k + i) by lia.
      * intros ([|i] & item' & Hi & Hlen & Hex).
        -- injection Hi as <-. rewrite Nat.add_0_r in Hlen, Hex.
           by rewrite row_loop_short in E.
        -- exists i, item'. by replace (S k + i) with (k + S i) by lia.
    + pose proof (row_loop_Raise _ _ _ _ _ E) as ->. split; [intros _|done].
      apply row_loop_Raise_inv in E as [Hlen Hex].
      exists 0, item. by rewrite Nat.add_0_r.
Qed.

(** X6: on any decoded text, the statements of cell 12 that follow
    [byte_data.decode("utf-8")], that is the split into chunks, the header
    scan, the slice [data[start_ind + 1:]] and the two loops, raise nothing
    but the NameError of the unbound [start_ind] and IndexError, and they
    raise IndexError exactly when the header scan has found the sentinel
    and some tokenised chunk of the data section has fewer than five tokens,
    one of them containing [.txt].  Reading the file and decoding its bytes
    come before [text]; what they raise is not part of this statement. *)
Theorem parse_exceptions (text : string) :
  (∀ e, parse text = Raise e → e = NameError "start_ind" ∨ e = IndexError) ∧
  (parse text = Raise IndexError ↔
   ∃ data_section index item,
     data_format (data text) = Ok data_section ∧
     data_section !! index = Some item ∧
     length (clean_item_data index item) < 5 ∧
     Exists (λ row, contains ".txt" row = true) (clean_item_data index item)).
Proof.
  unfold parse, data_format. destruct (start_ind (data text)) as [i|]; simpl.
  - split; [intros e ?%chunk_loop_Raise; by right|].
    rewrite chunk_loop_IndexError. split.
    + intros (index & item & ?). by exists (drop (i + 1) (data text)), index, item.
    + intros (ds & index & item & [= <-] & ?). by exists index, item.
  - split; [intros e [= <-]; by left|].
    split; [done | by intros (? & ? & ? & ? & _)].
Qed.

Lemma parse_exceptions_witness : parse short_window = Raise IndexError.
Proof.
  apply (proj2 (parse_exceptions short_window)).
  exists ["CIK|Company Name|Form Type|Date Filed|File Name" +:+ newline +:+ "1236397|BRADBURY";
          "DANIEL|4|20190401|edgar/data/1236397/0000886744-19-000047.txt"],
    1, "DANIEL|4|20190401|edgar/data/1236397/0000886744-19-000047.txt".
  split; [reflexivity|]. split; [reflexivity|]. split; [vm_compute; lia|].
  vm_compute. do 3 apply Exists_cons_tl. by apply Exists_cons_hd.
Defined.

(** *** The first chunk *)

Lemma windows_short (toks : list string) : length toks < 5 → windows toks = [].
Proof.
  intros Hlen. destruct (windows toks) as [|mini_list l] eqn:E; [done|].
  assert (mini_list ∈ windows toks) as Hin by (rewrite E; left).
  apply windows_elem in Hin as (index & row & Hrow%lookup_lt_Some & H4 & _). lia.
Qed.

(** X7: the first chunk behind the header is searched from its ninth token
    on, every later chunk from its first token.  A [.txt] token gives a row
    only from position 4 of what is searched, so a first chunk of twelve
    tokens or fewer gives no row at all: whatever rows the text has there
    are lost. *)
Theorem parse_first_chunk (text : string) (master_data : list (list string))
    (item : string) (rest : list string) :
  parse text = Ok master_data →
  data_format (data text) = Ok (item :: rest) →
  master_data
    = windows (drop 8 (tokens item)) ++ mjoin ((λ later, windows (tokens later)) <$> rest) ∧
  (length (tokens item) ≤ 12 →
   master_data = mjoin ((λ later, windows (tokens later)) <$> rest)).
Proof.
  intros (ds & Hds & ->)%parse_inv Hfirst.
  assert (ds = item :: rest) as -> by congruence.
  rewrite imap_cons. cbn [mjoin list_join].
  assert (imap ((λ index item0, windows (clean_item_data index item0)) ∘ S) rest
          = (λ later, windows (tokens later)) <$> rest) as ->.
  { rewrite <- imap_const. by apply imap_ext. }
  split; [done|]. intros Hlen.
  rewrite (windows_short (clean_item_data 0 item)); [done|].
  unfold clean_item_data. simpl. rewrite length_drop. lia.
Qed.

Lemma parse_first_chunk_witness :
  [filing_10K]
  = mjoin ((λ later, windows (tokens later))
           <$> ["1263364|Joway Health Industries Group Inc|10-K|20190401|"
                +:+ "edgar/data/1263364/0001213900-19-005388.txt"]).
Proof.
  refine (proj2 (parse_first_chunk
                   (sentinel +:+ "  " +:+ scenario_row +:+ "  "
                    +:+ "1263364|Joway Health Industries Group Inc|10-K|20190401|"
                    +:+ "edgar/data/1263364/0001213900-19-005388.txt")
                   [filing_10K] scenario_row _ _ _) _).
  - reflexivity.
  - reflexivity.
  - vm_compute. lia.
Defined.

End parser_more.

(** * More about cell 14 *)

Section dictionaries_more.

(** What the body of the loop does with an entry, case by case. *)
Lemma document_dict_cases (document : document) :
  match document with
  | Dict _ => document_dict document = Raise (KeyError "0")
  | Row fields =>
      if decide (5 ≤ length fields)
      then ∃ d, document_dict document = Ok d ∧ stores d fields ∧ dom d = keys
      else document_dict document = Raise IndexError
  end.
Proof.
  destruct document as [fields|d]; [|done].
  destruct (decide (5 ≤ length fields)) as [Hlen|Hlen].
  - destruct fields as [|c [|n [|f [|dt [|u rest]]]]]; simpl in Hlen; try lia.
    eexists. split; [done|]. split; [by repeat split|].
    unfold keys. rewrite !dom_insert_L, dom_empty_L. set_solver.
  - destruct fields as [|c [|n [|f [|dt [|u rest]]]]]; simpl in Hlen; try done; lia.
Qed.

(** The loop, started behind the dictionaries it has already written. *)
Lemma dict_loop_dicts_of (todo : list document) (dicts : list (gmap string string)) :
  dict_loop (length todo) (length dicts) ((Dict <$> dicts) ++ todo)
  = (ds ←? dicts_of todo; Ok (Dict <$> (dicts ++ ds))).
Proof.
  revert dicts. induction todo as [|document todo IH]; intros dicts.
  - simpl. by rewrite !app_nil_r.
  - assert (((Dict <$> dicts) ++ document :: todo) !! length dicts = Some document) as El.
    { rewrite lookup_app_r by by rewrite length_fmap.
      by rewrite length_fmap, Nat.sub_diag. }
    cbn [length dict_loop dicts_of]. rewrite El.
    destruct (document_dict document) as [d|e]; [|done]. cbn [bind].
    assert (<[length dicts := Dict d]> ((Dict <$> dicts) ++ document :: todo)
            = (Dict <$> dicts ++ [d]) ++ todo) as ->.
    { replace (length dicts) with (length (Dict <$> dicts) + 0)
        by (rewrite length_fmap; lia).
      by rewrite insert_app_r, fmap_app, <- app_assoc. }
    specialize (IH (dicts ++ [d])). rewrite length_app, Nat.add_1_r in IH.
    rewrite IH. destruct (dicts_of todo) as [ds|e]; [|done]. cbn [bind].
    by rewrite <- app_assoc.
Qed.

(** Rewriting [master_data] in place while iterating over it is the same as
    turning its entries into dictionaries one after the other and stopping
    at the first exception. *)
Lemma cell14_eq (master_data : list document) :
  cell14 master_data = (dicts ←? dicts_of master_data; Ok (Dict <$> dicts)).
Proof. apply (dict_loop_dicts_of master_data []). Qed.


Lemma dicts_of_Ok (master_data : list document) (dicts : list (gmap string string)) :
  dicts_of master_data = Ok dicts ↔
  Forall2 (λ d document, ∃ fields,
             document = Row fields ∧ 5 ≤ length fields ∧ stores d fields ∧ dom d = keys ∧
             document_dict document = Ok d)
          dicts master_data.
Proof.
  revert dicts. induction master_data as [|document master_data IH]; intros dicts.
  - simpl. split; [intros [= <-]; constructor | by intros ->%Forall2_nil_inv_r].
  - simpl. pose proof (document_dict_cases document) as Hcase. split.
    + destruct (document_dict document) as [d|e] eqn:Ed; [|done]. simpl.
      destruct (dicts_of master_data) as [ds|e] eqn:Eds; [|done]. simpl.
      intros [= <-]. constructor; [|by apply IH].
      destruct document as [fields|?]; [|done].
      destruct (decide (5 ≤ length fields)); [|done].
      destruct Hcase as (d' & [= <-] & ? & ?). by exists fields.
    + intros (d & ds & (fields & -> & _ & _ & _ & ->) & Hds & ->)%Forall2_cons_inv_r.
      apply IH in Hds as ->. done.
Qed.

(** X8: cell 14 succeeds exactly on a list of rows with five fields or
    more each, and then leaves one dictionary per row, in the order of the
    rows, with the first five fields under exactly the five keys; further
    fields of a row are dropped. *)
Theorem cell14_Ok (master_data out : list document) :
  cell14 master_data = Ok out ↔
  ∃ dicts,
    out = Dict <$> dicts ∧
    Forall2 (λ d document, ∃ fields,
               document = Row fields ∧ 5 ≤ length fields ∧
               stores d fields ∧ dom d = keys)
            dicts master_data.
Proof.
  rewrite cell14_eq. split.
  - destruct (dicts_of master_data) as [dicts|e] eqn:E; [|done]. intros [= <-].
    exists dicts. split; [done|]. apply dicts_of_Ok in E.
    eapply Forall2_impl; [done|]. intros d document (fields & ? & ? & ? & ? & _).
    by exists fields.
  - intros (dicts & -> & H).
    assert (dicts_of master_data = Ok dicts) as ->; [|done].
    apply dicts_of_Ok. eapply Forall2_impl; [done|].
    intros d document (fields & -> & Hlen & Hst & Hdom). exists fields.
    do 4 (split; [done|]).
    pose proof (document_dict_cases (Row fields)) as Hcase. simpl in Hcase.
    destruct (decide (5 ≤ length fields)); [|done].
    destruct Hcase as (d' & Hd' & Hst' & Hdom'). rewrite Hd'. f_equal.
    apply map_eq. intros k.
    destruct (decide (k ∈ keys)) as [Hk|Hk].
    + destruct Hst as (?&?&?&?&?), Hst' as (?&?&?&?&?).
      unfold keys in Hk. set_unfold in Hk.
      destruct Hk as [[[[->| ->]| ->]| ->]| ->]; congruence.
    + rewrite (not_elem_of_dom_1 d' k) by by rewrite Hdom'.
      by rewrite (not_elem_of_dom_1 d k) by by rewrite Hdom.
Qed.

Lemma record_of_stores (fields rest : list string) :
  length fields = 5 →
  stores (record_of fields) (fields ++ rest) ∧ dom (record_of fields) = keys.
Proof.
  intros (c & n & f & dt & u & ->)%length_5_inv. split; [by repeat split|].
  unfold record_of, keys. cbn [zip zip_with list_to_map foldr uncurry fst snd].
  rewrite !dom_insert_L, dom_empty_L. set_solver.
Qed.

Lemma cell14_Ok_witness :
  cell14 [Row filing_form4; Row (filing_10K ++ ["one field more"])]
  = Ok (Dict <$> [record_of filing_form4; record_of filing_10K]).
Proof.
  apply (proj2 (cell14_Ok _ _)).
  exists [record_of filing_form4; record_of filing_10K]. split; [reflexivity|].
  repeat constructor.
  - exists (filing_form4 ++ []). split; [reflexivity|]. split; [simpl; lia|].
    by apply record_of_stores.
  - exists (filing_10K ++ ["one field more"]). split; [reflexivity|].
    split; [simpl; lia|]. by apply record_of_stores.
Defined.

Lemma dicts_of_stops (rows : list (list string)) (bad : document)
    (rest : list document) (e : exn) :
  Forall (λ fields, 5 ≤ length fields) rows →
  document_dict bad = Raise e →
  dicts_of ((Row <$> rows) ++ bad :: rest) = Raise e.
Proof.
  intros Hrows Hbad. induction Hrows as [|fields rows Hlen _ IH].
  - cbn [fmap list_fmap app dicts_of]. by rewrite Hbad.
  - pose proof (document_dict_cases (Row fields)) as Hcase. simpl in Hcase.
    destruct (decide (5 ≤ length fields)); [|done].
    destruct Hcase as (d & Hd & _).
    cbn [fmap list_fmap app dicts_of]. rewrite Hd. cbn [bind].
    cbn [fmap list_fmap] in IH. by rewrite IH.
Qed.

(** X9: cell 14 stops at the first entry that is not a row of five fields
    or more: with IndexError on a shorter row, and with a KeyError for the
    key [0] on an entry that is a dictionary already. *)
Theorem cell14_stops (rows : list (list string)) (rest : list document) :
  Forall (λ fields, 5 ≤ length fields) rows →
  (∀ fields, length fields < 5 →
     cell14 ((Row <$> rows) ++ Row fields :: rest) = Raise IndexError) ∧
  (∀ d, cell14 ((Row <$> rows) ++ Dict d :: rest) = Raise (KeyError "0")).
Proof.
  intros Hrows. split.
  - intros fields Hlen. rewrite cell14_eq, (dicts_of_stops _ _ _ IndexError); try done.
    pose proof (document_dict_cases (Row fields)) as Hcase. simpl in Hcase.
    destruct (decide (5 ≤ length fields)); [lia | done].
  - intros d. by rewrite cell14_eq, (dicts_of_stops _ _ _ (KeyError "0")).
Qed.

Lemma cell14_stops_witness :
  cell14 [Row filing_form4; Row ["1263364"; "Joway Health Industries Group Inc"]]
    = Raise IndexError ∧
  cell14 [Row filing_form4; Dict (record_of filing_10K); Row filing_form4]
    = Raise (KeyError "0").
Proof.
  split.
  - apply (proj1 (cell14_stops [filing_form4] []
                    ltac:(repeat constructor; simpl; lia))
             ["1263364"; "Joway Health Industries Group Inc"]).
    simpl. lia.
  - apply (proj2 (cell14_stops [filing_form4] [Row filing_form4]
                    ltac:(repeat constructor; simpl; lia))).
Defined.

(** X10: cell 14 cannot be run twice: on the dictionaries it has left,
    unless there is none, it raises the KeyError of [document[0]]. *)
Theorem cell14_twice (master_data out : list document) :
  cell14 master_data = Ok out →
  cell14 out = match out with [] => Ok [] | _ :: _ => Raise (KeyError "0") end.
Proof.
  rewrite cell14_eq. destruct (dicts_of master_data) as [dicts|e]; [|done].
  intros [= <-]. destruct dicts as [|d dicts]; [done|].
  rewrite cell14_eq.
  by rewrite (dicts_of_stops [] (Dict d) (Dict <$> dicts) (KeyError "0")).
Qed.

Lemma cell14_twice_witness :
  cell14 (Dict <$> [record_of filing_form4; record_of filing_10K])
  = Raise (KeyError "0").
Proof.
  apply (cell14_twice [Row filing_form4; Row filing_10K]). reflexivity.
Defined.

End dictionaries_more.

(** * More about cell 16 *)

Section filter_more.
Local Arguments String.append : simpl nomatch.
Import PyStr PyStrFacts.

Lemma rebound_cons (field : string) (d : gmap string string)
    (hits : list (gmap string string)) (before : option string) :
  rebound field (d :: hits) before = rebound field hits (d !! field).
Proof.
  unfold rebound. destruct hits as [|d' hits]; [done|].
  change (last (d :: d' :: hits)) with (last (d' :: hits)).
  destruct (last (d' :: hits)) eqn:E; [done|]. by apply last_None in E.
Qed.

Lemma scan_step_full (form : string) (d : gmap string string) (st : scan) :
  DocumentRecord d →
  scan_step form (Dict d) st
  = Ok (if decide (has_form form d)
        then Scan (hits st ++ [d]) (d !! "company_name") (d !! "file_url")
                  (stdout st ++ hit_lines d)
        else st).
Proof.
  intros (form_id & name & url & Hf & Hn & Hu)%DocumentRecord_keys.
  unfold scan_step, getitem_str, hit_lines. rewrite Hf. cbn [bind].
  destruct (decide (has_form form d)) as [Hh|Hh]; unfold has_form in Hh.
  - by rewrite bool_decide_true, Hn, Hu by congruence.
  - by rewrite bool_decide_false by congruence.
Qed.

(** The state behind the filter loop, in full. *)
Lemma scan_loop_full (form : string) (records : list (gmap string string)) (st : scan) :
  Forall DocumentRecord records →
  scan_loop form (Dict <$> records) st
  = Ok {| hits := hits st ++ filter (has_form form) records;
          comp_name := rebound "company_name" (filter (has_form form) records) (comp_name st);
          docu_url := rebound "file_url" (filter (has_form form) records) (docu_url st);
          stdout := stdout st ++ (filter (has_form form) records ≫= hit_lines) |}.
Proof.
  intros Hrec. revert st. induction Hrec as [|d records Hd _ IH]; intros st.
  - simpl. rewrite filter_nil, !app_nil_r. by destruct st.
  - cbn [fmap list_fmap scan_loop]. rewrite scan_step_full by done. cbn [bind].
    rewrite filter_cons. destruct (decide (has_form form d)).
    + rewrite IH. cbn [hits comp_name docu_url stdout]. f_equal.
      rewrite !rebound_cons, <- !app_assoc. done.
    + apply IH.
Qed.

Lemma scan_loop_app (form : string) (l1 l2 : list document) (st : scan) :
  scan_loop form (l1 ++ l2) st = (st' ←? scan_loop form l1 st; scan_loop form l2 st').
Proof.
  revert st. induction l1 as [|x l1 IH]; intros st; simpl; [done|].
  destruct (scan_step form x st); simpl; [apply IH | done].
Qed.

(** The run of cell 16 on well-formed records, in full. *)
Lemma cell16_full (form : string) (g : globals) (records : list (gmap string string)) :
  g_master_data g = Dict <$> records →
  Forall DocumentRecord records →
  cell16 form g
  = (url ←? read "docu_url"
              (rebound "file_url" (filter (has_form form) (take 100 records)) (g_docu_url g));
     detail ←? file_url_archive url;
     Ok {| g_master_data := Dict <$> records;
           g_comp_name := rebound "company_name"
                            (filter (has_form form) (take 100 records)) (g_comp_name g);
           g_docu_url := Some url;
           g_file_url_archive := Some detail;
           g_archive_url := Some (archive_url url);
           g_company_url := Some (company_url url);
           g_stdout := g_stdout g
                       ++ (filter (has_form form) (take 100 records) ≫= hit_lines)
                       ++ url_lines detail (archive_url url) (company_url url).1.1 |}).
Proof.
  intros Hg Hrec. unfold cell16, scan_forms.
  rewrite Hg, (slice_0 100), <- fmap_take.
  rewrite scan_loop_full by by apply Forall_take. cbn [bind docu_url comp_name stdout].
  destruct (read _ _) as [url|e]; [|done]. cbn [bind].
  destruct (file_url_archive url) as [detail|e]; [|done]. cbn [bind].
  do 2 f_equal. unfold url_lines. by rewrite <- !app_assoc.
Qed.

(** X11: when a record among the first hundred has the form type asked
    for, cell 16 succeeds.  It prints three lines for every such record, in
    order, and then the three derived URLs of the LAST of them only; the
    variables [comp_name] and [docu_url] are left at the name and the
    reference of that last record, and [master_data] is untouched. *)
Theorem cell16_hit (form : string) (g : globals)
    (records : list (gmap string string)) (d : gmap string string) :
  g_master_data g = Dict <$> records →
  Forall DocumentRecord records →
  last (filter (has_form form) (take 100 records)) = Some d →
  ∃ name url detail,
    d !! "company_name" = Some name ∧ d !! "file_url" = Some url ∧
    file_url_archive url = Ok detail ∧
    cell16 form g
    = Ok {| g_master_data := Dict <$> records;
            g_comp_name := Some name;
            g_docu_url := Some url;
            g_file_url_archive := Some detail;
            g_archive_url := Some (archive_url url);
            g_company_url := Some (company_url url);
            g_stdout := g_stdout g
                        ++ (filter (has_form form) (take 100 records) ≫= hit_lines)
                        ++ url_lines detail (archive_url url) (company_url url).1.1 |}.
Proof.
  intros Hg Hrec Hlast.
  assert (DocumentRecord d) as Hd.
  { apply last_Some_elem_of in Hlast. apply list_elem_of_filter in Hlast as [_ Hin].
    assert (Forall DocumentRecord (take 100 records)) as H by by apply Forall_take.
    rewrite Forall_forall in H. by apply H. }
  apply DocumentRecord_keys in Hd as (_ & name & url & _ & Hn & Hu).
  destruct (file_url_archive_total url) as [detail Hdetail].
  exists name, url, detail. do 3 (split; [done|]).
  rewrite (cell16_full form g records Hg Hrec). unfold rebound. rewrite Hlast, Hu, Hn.
  cbn [read bind]. by rewrite Hdetail.
Qed.

Lemma cell16_hit_witness :
  ∃ name url detail,
    record_of filing_10K !! "company_name" = Some name ∧
    record_of filing_10K !! "file_url" = Some url ∧
    file_url_archive url = Ok detail ∧
    cell16 "10-K"
      (fresh (Dict <$> [record_of filing_10K; record_of filing_form4; record_of filing_10K]))
    = Ok {| g_master_data :=
              Dict <$> [record_of filing_10K; record_of filing_form4; record_of filing_10K];
            g_comp_name := Some name;
            g_docu_url := Some url;
            g_file_url_archive := Some detail;
            g_archive_url := Some (archive_url url);
            g_company_url := Some (company_url url);
            g_stdout := [] ++ hit_lines (record_of filing_10K)
                        ++ hit_lines (record_of filing_10K)
                        ++ url_lines detail (archive_url url) (company_url url).1.1 |}.
Proof.
  apply (cell16_hit "10-K"
           (fresh (Dict <$> [record_of filing_10K; record_of filing_form4; record_of filing_10K]))
           [record_of filing_10K; record_of filing_form4; record_of filing_10K]
           (record_of filing_10K)).
  - reflexivity.
  - repeat constructor; by apply record_of_DocumentRecord.
  - reflexivity.
Defined.

(** X12: when no record among the first hundred has the form type asked
    for, cell 16 fails on the unbound [docu_url] in a fresh session; when an
    earlier run has left [docu_url] bound, it succeeds instead and derives
    the three URLs from that stale reference, printing them alone. *)
Theorem cell16_no_hit (form : string) (g : globals)
    (records : list (gmap string string)) :
  g_master_data g = Dict <$> records →
  Forall DocumentRecord records →
  filter (has_form form) (take 100 records) = [] →
  cell16 form g
  = match g_docu_url g with
    | None => Raise (NameError "docu_url")
    | Some url =>
        detail ←? file_url_archive url;
        Ok {| g_master_data := Dict <$> records;
              g_comp_name := g_comp_name g;
              g_docu_url := Some url;
              g_file_url_archive := Some detail;
              g_archive_url := Some (archive_url url);
              g_company_url := Some (company_url url);
              g_stdout := g_stdout g
                          ++ url_lines detail (archive_url url) (company_url url).1.1 |}
    end.
Proof.
  intros Hg Hrec Hnone. rewrite (cell16_full form g records Hg Hrec), Hnone.
  unfold rebound. cbn [last read]. by destruct (g_docu_url g).
Qed.

Lemma cell16_no_hit_witness :
  cell16 "10-K" (fresh (Dict <$> [record_of filing_form4])) = Raise (NameError "docu_url").
Proof.
  apply (cell16_no_hit "10-K" (fresh (Dict <$> [record_of filing_form4]))
           [record_of filing_form4]).
  - reflexivity.
  - repeat constructor; by apply record_of_DocumentRecord.
  - reflexivity.
Defined.

(** X13: only the first hundred entries are read.  A hundred well-formed
    records in front make whatever follows irrelevant, while an entry that
    is still a row (cell 14 not run) among the first hundred raises
    TypeError. *)
Theorem filterByFormType_reads_100 (form : string)
    (records : list (gmap string string)) (rest : list document) :
  Forall DocumentRecord records →
  (100 ≤ length records →
     filterByFormType form ((Dict <$> records) ++ rest)
     = Ok (filter (has_form form) (take 100 records))) ∧
  (length records < 100 → ∀ fields,
     filterByFormType form ((Dict <$> records) ++ Row fields :: rest) = Raise TypeError).
Proof.
  intros Hrec. unfold filterByFormType, scan_forms. split.
  - intros Hlen. rewrite (slice_0 100), take_app_le by by rewrite length_fmap.
    rewrite <- fmap_take, scan_loop_full by by apply Forall_take. done.
  - intros Hlen fields. rewrite (slice_0 100).
    rewrite take_app_ge by (rewrite length_fmap; lia). rewrite length_fmap.
    destruct (100 - length records) as [|n] eqn:E; [lia|]. cbn [take].
    rewrite scan_loop_app, scan_loop_full by done. done.
Qed.

Lemma filterByFormType_reads_100_witness :
  filterByFormType "10-K"
    ((Dict <$> replicate 100 (record_of filing_form4)) ++ [Row filing_10K])
    = Ok [] ∧
  filterByFormType "10-K" ((Dict <$> [record_of filing_10K]) ++ [Row filing_form4])
    = Raise TypeError.
Proof.
  split.
  - refine (proj1 (filterByFormType_reads_100 "10-K"
                     (replicate 100 (record_of filing_form4)) [Row filing_10K] _) _).
    + apply Forall_replicate. by apply record_of_DocumentRecord.
    + by rewrite length_replicate.
  - apply (proj2 (filterByFormType_reads_100 "10-K" [record_of filing_10K] []
                    ltac:(repeat constructor; by apply record_of_DocumentRecord))).
    simpl. lia.
Defined.

(** *** The derived URLs on any reference *)

(** X14: the detail URL never fails: it is the text of the reference in
    front of its first [.txt], followed by [-index.htm]; a reference without
    [.txt] is kept whole. *)
Theorem file_url_archive_prefix (docu_url : string) :
  ∃ head,
    file_url_archive docu_url = Ok (head +:+ "-index.htm") ∧
    startswith head docu_url = true ∧
    contains ".txt" head = false ∧
    (contains ".txt" docu_url = true → startswith (head +:+ ".txt") docu_url = true) ∧
    (contains ".txt" docu_url = false → head = docu_url).
Proof.
  unfold file_url_archive. rewrite split_eq by done. unfold contains.
  destruct (find ".txt" docu_url) as [i|] eqn:F.
  - exists (slice_to i docu_url). split; [done|].
    pose proof (find_cut _ _ _ F) as Hcut. split; [|split; [|split; [|done]]].
    + apply startswith_spec. eexists. symmetry. apply slice_to_from.
    + by rewrite (find_slice_to ".txt" docu_url i).
    + intros _. apply startswith_spec. eexists. by rewrite str_app_assoc.
  - exists docu_url. split; [done|]. rewrite F.
    split; [apply startswith_spec; exists ""; by rewrite str_app_nil_r|].
    by repeat split.
Qed.

Lemma file_url_archive_prefix_witness :
  ∃ head,
    file_url_archive "https://www.sec.gov/Archives/edgar/data/1263364/index.json"
      = Ok (head +:+ "-index.htm") ∧
    startswith head "https://www.sec.gov/Archives/edgar/data/1263364/index.json" = true ∧
    contains ".txt" head = false ∧
    head = "https://www.sec.gov/Archives/edgar/data/1263364/index.json".
Proof.
  destruct (file_url_archive_prefix
              "https://www.sec.gov/Archives/edgar/data/1263364/index.json")
    as (head & H1 & H2 & H3 & _ & H5).
  exists head. repeat split; try done. by apply H5.
Defined.

(** X15: the three parts of [company_url] always give the reference back
    when put together, and the tail has no ["/"]; for a reference without
    ["/"] the company folder is the empty string and the tail is the whole
    reference. *)
Theorem company_url_round_trip (docu_url : string) :
  (company_url docu_url).1.1 +:+ (company_url docu_url).1.2 +:+ (company_url docu_url).2
    = docu_url ∧
  contains "/" (company_url docu_url).2 = false ∧
  (contains "/" docu_url = false → company_url docu_url = ("", "", docu_url)).
Proof.
  unfold company_url. destruct (contains "/" docu_url) eqn:E.
  - apply rpartition_char_Some in E as (head & tail & -> & E & Htail).
    simpl. by rewrite E.
  - apply contains_false in E as E'. unfold rpartition.
    rewrite (rfind_absent _ _ E'). simpl. by rewrite E.
Qed.

Lemma company_url_round_trip_witness :
  company_url "0001213900-19-005388.txt" = ("", "", "0001213900-19-005388.txt").
Proof. apply (proj2 (proj2 (company_url_round_trip _))). reflexivity. Defined.

End filter_more.

(** * More about the URL builder *)

Section url_builder_more.
Local Arguments String.append : simpl nomatch.
Import PyStr PyStrFacts.

Lemma make_url_snoc (base_url : string) (comp : list string) (r : string) :
  make_url base_url (comp ++ [r]) = make_url base_url comp +:+ "/" +:+ r.
Proof. unfold make_url. by rewrite foldl_snoc. Qed.

(** X16: URLs are built step by step: extending a built URL by further
    components is building it from all components at once.  The base is
    never altered: it starts the result, and the result is longer than the
    base by the components and one separator each. *)
Theorem make_url_compose (base_url : string) (comp more : list string) :
  make_url (make_url base_url comp) more = make_url base_url (comp ++ more) ∧
  startswith base_url (make_url base_url comp) = true ∧
  len (make_url base_url comp) = len base_url + length comp + sum_list_with len comp.
Proof.
  split; [unfold make_url; by rewrite foldl_app|].
  induction comp as [|r comp IH] using rev_ind.
  - split; [apply startswith_spec; exists ""; by rewrite str_app_nil_r | simpl; lia].
  - destruct IH as [IH1 IH2]. rewrite make_url_snoc. split.
    + apply startswith_spec in IH1 as [t Ht]. apply startswith_spec.
      exists (t +:+ "/" +:+ r). by rewrite Ht at 1; rewrite !str_app_assoc.
    + rewrite !len_app, IH2, length_app, sum_list_with_app. simpl. lia.
Qed.

(** X17: the company folder of a built URL is the URL built without its
    last component, when that component has no ["/"]: [rpartition] undoes
    the last step of [make_url]. *)
Theorem company_url_make_url (base_url : string) (comp : list string) (r : string) :
  contains "/" r = false →
  company_url (make_url base_url (comp ++ [r])) = (make_url base_url comp, "/", r).
Proof.
  intros Hr%contains_false. rewrite make_url_snoc.
  by apply rpartition_char.
Qed.

Lemma company_url_make_url_witness :
  company_url (make_url "https://www.sec.gov/Archives/edgar/data"
                 (["886982"; "000156459019011378"] ++ ["0001564590-19-011378-index.html"]))
  = (make_url "https://www.sec.gov/Archives/edgar/data" ["886982"; "000156459019011378"],
     "/", "0001564590-19-011378-index.html").
Proof. apply company_url_make_url. reflexivity. Defined.

End url_builder_more.

(** * Cells 5, 7 and 9: the walks over the directory listings *)

Section walks.
Context (server : string → result (list (gmap string string))).
Context (base_url cik_num : string).

Lemma print_nil (w : walk) : print [] w = w.
Proof. destruct w. unfold print. simpl. by rewrite app_nil_r. Qed.

Lemma print_print (l1 l2 : list string) (w : walk) :
  print l2 (print l1 w) = print (l1 ++ l2) w.
Proof. unfold print. simpl. by rewrite app_assoc. Qed.

(** [l[a:b]] for bounds that are not negative. *)
Lemma slice_nonneg {A : Type} (a b : nat) (l : list A) :
  PyList.slice (Z.of_nat a) (Z.of_nat b) l = take (b - a) (drop a l).
Proof.
  unfold PyList.slice, PyList.bound.
  destruct (Z.ltb_spec (Z.of_nat a) 0) as [?|_]; [lia|].
  destruct (Z.ltb_spec (Z.of_nat b) 0) as [?|_]; [lia|].
  rewrite !Nat2Z.id. destruct (decide (a ≤ length l)) as [Ha|Ha].
  - rewrite (Nat.min_l a) by done. destruct (decide (b ≤ length l)).
    + by rewrite Nat.min_l.
    + rewrite Nat.min_r by lia.
      rewrite (take_ge (drop a l) (b - a)), (take_ge (drop a l) (length l - a))
        by (rewrite length_drop; lia).
      done.
  - rewrite (Nat.min_r a) by lia. by rewrite !drop_ge, !take_nil by lia.
Qed.

(** *** Cell 5 *)

Lemma document_loop_shown (filing_number : string)
    (documents : list (gmap string string)) (w : walk) :
  Forall (λ d, is_Some (d !! "type") ∧ (shown d → is_Some (d !! "name"))) documents →
  document_loop base_url cik_num filing_number documents w
  = Ok (print (document_url base_url cik_num filing_number <$> filter shown documents) w).
Proof.
  intros H. revert w. induction H as [|d documents [[ty Hty] Hname] _ IH]; intros w.
  - cbn [document_loop]. by rewrite filter_nil, fmap_nil, print_nil.
  - cbn [document_loop]. unfold document_step, getitem_str. rewrite Hty. cbn [bind].
    rewrite filter_cons. destruct (decide (shown d)) as [Hs|Hs].
    + destruct (Hname Hs) as [name Hn]. unfold shown in Hs. rewrite Hty in Hs.
      rewrite bool_decide_true, Hn by congruence. cbn [bind]. rewrite IH, print_print.
      unfold document_url at 2. by rewrite fmap_cons, Hn.
    + unfold shown in Hs. rewrite Hty in Hs.
      rewrite bool_decide_false; [apply IH|]. intros Hne. apply Hs. congruence.
Qed.

(** X18: cell 5 walks the FIRST filing of the company only.  It requests
    the listing of the company and the listing of that filing, and prints,
    in order, one URL [base/CIK/filing/name] for every document of the filing
    whose type is not [image2.gif]; the other filings do not matter, and an
    image need not even have a name. *)
Theorem cell5_first_filing (first : gmap string string)
    (others documents : list (gmap string string)) (filing_number : string) :
  server (make_url base_url [cik_num; "index.json"]) = Ok (first :: others) →
  first !! "name" = Some filing_number →
  server (make_url base_url [cik_num; filing_number; "index.json"]) = Ok documents →
  Forall (λ d, is_Some (d !! "type") ∧ (shown d → is_Some (d !! "name"))) documents →
  cell5 server base_url cik_num
  = Ok {| requested := [make_url base_url [cik_num; "index.json"];
                        make_url base_url [cik_num; filing_number; "index.json"]];
          printed := document_url base_url cik_num filing_number
                     <$> filter shown documents |}.
Proof.
  intros H1 Hname H2 Hdocs. unfold cell5, fetch. rewrite H1. cbn [bind fst snd].
  change ((first :: others) !! 0) with (Some first). cbn [bind].
  unfold getitem_str. rewrite Hname. cbn [bind].
  rewrite H2. cbn [bind fst snd]. rewrite document_loop_shown by done.
  unfold print. simpl. done.
Qed.

(** *** Cell 7 *)

Lemma name_loop_requested (filing_num : string)
    (documents : list (gmap string string)) (w w' : walk) :
  name_loop base_url cik_num filing_num documents w = Ok w' →
  requested w' = requested w.
Proof.
  revert w. induction documents as [|d documents IH]; intros w; cbn [name_loop].
  - by intros [= <-].
  - destruct (getitem_str (Dict d) "name") as [name|e]; [|done]. cbn [bind].
    intros H. by rewrite (IH _ H).
Qed.

Lemma filing_loop_requested (filings : list (gmap string string)) (w w' : walk) :
  filing_loop server base_url cik_num filings w = Ok w' →
  requested w' = requested w ++ (listing_url base_url cik_num <$> filings).
Proof.
  revert w. induction filings as [|f filings IH]; intros w; cbn [filing_loop].
  - intros [= <-]. by rewrite app_nil_r.
  - destruct (filing_step server base_url cik_num f w) as [w1|e] eqn:E; [|done].
    cbn [bind]. intros H. rewrite (IH _ H), fmap_cons. 
    enough (requested w1 = requested w ++ [listing_url base_url cik_num f]) as ->
      by by rewrite <- app_assoc.
    unfold filing_step, getitem_str, fetch in E.
    destruct (f !! "name") as [name|] eqn:Hn; [|done]. cbn [bind] in E.
    destruct (server _) as [items|e]; [|done]. cbn [bind fst snd] in E.
    apply name_loop_requested in E. rewrite E. unfold listing_url. by rewrite Hn.
Qed.

(** X19: cell 7 walks the filings at positions 3 and 4 of the listing of
    the company and no other: behind the listing of the company it requests
    the listings of these filings, in order, so three URLs at most, and with
    a listing of three filings or fewer it requests nothing else and prints
    nothing. *)
Theorem cell7_two_filings (filings : list (gmap string string)) (w : walk) :
  server (make_url base_url [cik_num; "index.json"]) = Ok filings →
  cell7 server base_url cik_num = Ok w →
  requested w
  = make_url base_url [cik_num; "index.json"]
    :: (listing_url base_url cik_num <$> take 2 (drop 3 filings)) ∧
  length (requested w) ≤ 3 ∧
  (length filings ≤ 3 → w = Walk [make_url base_url [cik_num; "index.json"]] []).
Proof.
  intros H1. unfold cell7, fetch. rewrite H1. cbn [bind fst snd].
  rewrite (slice_nonneg 3 5). change (5 - 3) with 2. intros Hloop.
  pose proof (filing_loop_requested _ _ _ Hloop) as Hreq. simpl in Hreq.
  split; [done|]. split.
  - rewrite Hreq. simpl. rewrite length_fmap, length_take. lia.
  - intros Hlen. rewrite drop_ge in Hloop by done. by injection Hloop as <-.
Qed.

(** *** Cell 9 *)

Lemma file_loop_names (item : gmap string string) (quarter : string)
    (files : list (gmap string string)) (w : walk) :
  item !! "name" = Some quarter →
  Forall (λ file, is_Some (file !! "name")) files →
  file_loop base_url item files w
  = Ok (print ((λ file, "File URL Link: "
                        +:+ make_url base_url ["2019"; quarter; default "" (file !! "name")])
               <$> files) w).
Proof.
  intros Hq H. revert w. induction H as [|file files [name Hn] _ IH]; intros w.
  - cbn [file_loop]. by rewrite fmap_nil, print_nil.
  - cbn [file_loop]. unfold getitem_str. rewrite Hq, Hn. cbn [bind].
    rewrite IH, print_print, fmap_cons, Hn. done.
Qed.

(** X20: cell 9 walks the FIRST quarter of the year only, and the first
    ten files of that quarter only.  It requests the listing of the year and
    the listing of that quarter, and prints three lines for the year, five
    for the quarter and one URL [base/2019/quarter/name] for each of these
    files, in order; further quarters and further files do not matter. *)
Theorem cell9_first_quarter (item : gmap string string)
    (others files : list (gmap string string)) (quarter : string) :
  server (make_url base_url ["2019"; "index.json"]) = Ok (item :: others) →
  item !! "name" = Some quarter →
  server (make_url base_url ["2019"; quarter; "index.json"]) = Ok files →
  Forall (λ file, is_Some (file !! "name")) (take 10 files) →
  cell9 server base_url
  = Ok {| requested := [make_url base_url ["2019"; "index.json"];
                        make_url base_url ["2019"; quarter; "index.json"]];
          printed :=
            [rule; "Building the URL for Year: 2019";
             "URL Link: " +:+ make_url base_url ["2019"; "index.json"];
             rule; "Pulling url for Quarter: " +:+ quarter;
             "URL Link: " +:+ make_url base_url ["2019"; quarter; "index.json"];
             rule; "Pulling files"]
            ++ ((λ file, "File URL Link: "
                         +:+ make_url base_url ["2019"; quarter; default "" (file !! "name")])
                <$> take 10 files) |}.
Proof.
  intros H1 Hq H2 Hfiles. unfold cell9, fetch. rewrite H1. cbn [bind fst snd].
  rewrite (slice_nonneg 0 1). cbn [drop take Nat.sub]. cbn [quarter_loop].
  unfold quarter_step, fetch, getitem_str. rewrite Hq. cbn [bind]. rewrite H2.
  cbn [bind fst snd]. rewrite (slice_nonneg 0 10), drop_0.
  rewrite (file_loop_names item quarter) by done. cbn [bind quarter_loop].
  unfold print. simpl. done.
Qed.

End walks.

(** *** The walks on the sample listings *)

Section walks_on_samples.

Lemma cell5_first_filing_witness :
  cell5 sample_server "https://www.sec.gov/Archives/edgar/data" "886982"
  = Ok {| requested := ["https://www.sec.gov/Archives/edgar/data/886982/index.json";
                        "https://www.sec.gov/Archives/edgar/data/886982/f0/index.json"];
          printed := ["https://www.sec.gov/Archives/edgar/data/886982/f0/a.htm"] |}.
Proof.
  apply (cell5_first_filing sample_server "https://www.sec.gov/Archives/edgar/data" "886982"
           (entry "f0" "folder.gif")
           [entry "f1" "folder.gif"; entry "f2" "folder.gif"; entry "f3" "folder.gif";
            entry "f4" "folder.gif"]
           [entry "a.htm" "text.gif"; entry "b.jpg" "image2.gif"] "f0").
  - reflexivity.
  - reflexivity.
  - reflexivity.
  - repeat constructor; by eexists.
Defined.

Lemma cell7_two_filings_witness :
  requested
    {| requested := ["https://www.sec.gov/Archives/edgar/data/886982/index.json";
                     "https://www.sec.gov/Archives/edgar/data/886982/f3/index.json";
                     "https://www.sec.gov/Archives/edgar/data/886982/f4/index.json"];
       printed := [rule; "Grabbing filing : f3";
                   "https://www.sec.gov/Archives/edgar/data/886982/f3/a.htm";
                   "https://www.sec.gov/Archives/edgar/data/886982/f3/b.jpg";
                   rule; "Grabbing filing : f4";
                   "https://www.sec.gov/Archives/edgar/data/886982/f4/a.htm";
                   "https://www.sec.gov/Archives/edgar/data/886982/f4/b.jpg"] |}
  = "https://www.sec.gov/Archives/edgar/data/886982/index.json"
    :: (listing_url "https://www.sec.gov/Archives/edgar/data" "886982"
        <$> [entry "f3" "folder.gif"; entry "f4" "folder.gif"]).
Proof.
  refine (proj1 (cell7_two_filings sample_server "https://www.sec.gov/Archives/edgar/data"
                   "886982"
                   [entry "f0" "folder.gif"; entry "f1" "folder.gif"; entry "f2" "folder.gif";
                    entry "f3" "folder.gif"; entry "f4" "folder.gif"] _ _ _)).
  - reflexivity.
  - reflexivity.
Defined.

Lemma cell9_first_quarter_witness :
  ∃ lines,
    cell9 sample_server "https://www.sec.gov/Archives/edgar/daily-index"
    = Ok {| requested :=
              ["https://www.sec.gov/Archives/edgar/daily-index/2019/index.json";
               "https://www.sec.gov/Archives/edgar/daily-index/2019/QTR1/index.json"];
            printed := lines |} ∧
    length lines = 18.
Proof.
  eexists. split.
  - apply (cell9_first_quarter sample_server "https://www.sec.gov/Archives/edgar/daily-index"
             (entry "QTR1" "dir") [entry "QTR2" "dir"]
             ((λ n, entry n "file") <$>
              ["i01"; "i02"; "i03"; "i04"; "i05"; "i06"; "i07"; "i08"; "i09"; "i10";
               "i11"; "i12"])
             "QTR1").
    + reflexivity.
    + reflexivity.
    + reflexivity.
    + repeat constructor; by eexists.
  - reflexivity.
Defined.

End walks_on_samples.
